(** * rst2pdf code-block directive: a shallow embedding and its properties

    The development follows [rst2pdf/directives/code_block.py]:

    - [Py]: the Python built-ins the directive relies on ([str.find],
      slicing, [str.splitlines], [str.split], [str.count], [str.rstrip],
      [str.lower], [int], ["%Nd" % n]);
    - [DocutilsInterface]: [lex], [join] and [__iter__], with generators
      modelled as finite traces (what was yielded, and how iteration ended);
    - [code_block_directive]: span extraction by anchors, tab expansion,
      highlight selection, line numbering and the emitted docutils nodes.

    Strings are sequences of code points; this development works with
    the code points below 256 ([ascii]), the range in which every string
    literal of the source lives. *)

From Stdlib Require Import List ZArith Ascii String Lia Bool.
From Stdlib Require Import Numbers.DecimalString.
From Stdlib Require Import NArith.
From Stdlib Require Numbers.DecimalPos Numbers.DecimalFacts.
Import ListNotations.

Open Scope list_scope.
Open Scope string_scope.
Open Scope Z_scope.

(** ** Python built-ins *)

Module Py.

(** ["\n"], ["\r"], ["\t"] and the double quote, as characters and as
    one-character strings. *)
Definition LF : ascii := "010"%char.
Definition CR : ascii := "013"%char.
Definition TAB : ascii := "009"%char.
Definition nl : string := String LF "".
Definition dq : string := String "034"%char "".

Definition len (s : string) : Z := Z.of_nat (String.length s).

(** [bool(s)] for a string. *)
Definition truthy (s : string) : bool :=
  match s with "" => false | _ => true end.

(** [s.startswith(p)]. *)
Fixpoint startswith (s p : string) : bool :=
  match p, s with
  | "", _ => true
  | String _ _, "" => false
  | String a p', String b s' => Ascii.eqb a b && startswith s' p'
  end.

(** [s.find(sub)]: the lowest index at which [sub] occurs, [-1] if none. *)
Fixpoint find_from (s sub : string) (i : Z) : Z :=
  if startswith s sub then i
  else match s with
       | "" => -1
       | String _ s' => find_from s' sub (i + 1)
       end.

Definition find (s sub : string) : Z := find_from s sub 0.

(** Normalisation of a slice bound against the length, as [s[i:j]]
    does it: negative bounds count from the end, all bounds are clamped. *)
Definition clamp (n i : Z) : Z :=
  if i <? 0 then Z.max 0 (n + i) else Z.min i n.

(** [s[lo:hi]]; [None] is an omitted bound. *)
Definition slice (s : string) (lo hi : option Z) : string :=
  let n := len s in
  let a := match lo with None => 0 | Some i => clamp n i end in
  let b := match hi with None => n | Some j => clamp n j end in
  substring (Z.to_nat a) (Z.to_nat (b - a)) s.

(** [s[start:stop:-1]] for [stop >= 0]: the characters at indices
    [start], [start - 1], ..., [stop + 1], in that order. *)
Definition slice_rev (s : string) (start stop : Z) : list ascii :=
  let n := len s in
  let hi := if start <? 0 then Z.max (-1) (n + start) else Z.min start (n - 1) in
  let lo := Z.min stop (n - 1) in
  rev (list_ascii_of_string
         (substring (Z.to_nat (lo + 1)) (Z.to_nat (hi - lo)) s)).

(** The line boundaries of [str.splitlines] among the code points
    below 256: LF, VT, FF, CR, FS, GS, RS and NEL. *)
Definition is_linebreak (c : ascii) : bool :=
  let k := nat_of_ascii c in
  (Nat.leb 10 k && Nat.leb k 13) || (Nat.leb 28 k && Nat.leb k 30)
  || Nat.eqb k 133.

(** [s.splitlines()]: [cur] holds the current line, reversed.  A CR
    directly followed by LF is one boundary; a final line without a
    terminator is a line only when it is not empty. *)
Fixpoint splitlines_from (cur : list ascii) (s : string) : list string :=
  match s with
  | "" => match cur with
          | [] => []
          | _ => [string_of_list_ascii (rev cur)]
          end
  | String c s' =>
      if is_linebreak c then
        string_of_list_ascii (rev cur) ::
          match s' with
          | String d s'' =>
              if Ascii.eqb c CR && Ascii.eqb d LF
              then splitlines_from [] s''
              else splitlines_from [] s'
          | "" => splitlines_from [] s'
          end
      else splitlines_from (c :: cur) s'
  end.

Definition splitlines (s : string) : list string := splitlines_from [] s.

(** [s.split("\n")]. *)
Fixpoint split_nl (s : string) : list string :=
  match s with
  | "" => [""]
  | String c s' =>
      if Ascii.eqb c LF then "" :: split_nl s'
      else match split_nl s' with
           | h :: t => String c h :: t
           | [] => [String c ""]
           end
  end.

(** [s.count("\n")]. *)
Fixpoint count_nl (s : string) : Z :=
  match s with
  | "" => 0
  | String c s' => (if Ascii.eqb c LF then 1 else 0) + count_nl s'
  end.

(** ["\n" in s]. *)
Fixpoint contains_nl (s : string) : bool :=
  match s with
  | "" => false
  | String c s' => Ascii.eqb c LF || contains_nl s'
  end.

(** [c.isspace()] for the code points below 256. *)
Definition isspace (c : ascii) : bool :=
  let k := nat_of_ascii c in
  (Nat.leb 9 k && Nat.leb k 13) || (Nat.leb 28 k && Nat.leb k 32)
  || Nat.eqb k 133 || Nat.eqb k 160.

(** Removal of the trailing characters that satisfy [p]. *)
Fixpoint rstrip_by (p : ascii -> bool) (s : string) : string :=
  match s with
  | "" => ""
  | String c s' =>
      let r := rstrip_by p s' in
      if negb (truthy r) && p c then "" else String c r
  end.

(** Removal of the leading characters that satisfy [p]. *)
Fixpoint lstrip_by (p : ascii -> bool) (s : string) : string :=
  match s with
  | "" => ""
  | String c s' => if p c then lstrip_by p s' else s
  end.

(** [s.rstrip()]. *)
Definition rstrip (s : string) : string := rstrip_by isspace s.

(** [s.lower()] for the code points below 256. *)
Definition lower_char (c : ascii) : ascii :=
  let k := nat_of_ascii c in
  if (Nat.leb 65 k && Nat.leb k 90)
     || (Nat.leb 192 k && Nat.leb k 222 && negb (Nat.eqb k 215))
  then ascii_of_nat (k + 32) else c.

Fixpoint lower (s : string) : string :=
  match s with
  | "" => ""
  | String c s' => String (lower_char c) (lower s')
  end.

(** [" " * n]: empty when [n <= 0]. *)
Definition spaces (n : Z) : string :=
  string_of_list_ascii (repeat " "%char (Z.to_nat n)).

(** [s.replace("\t", by)]. *)
Fixpoint replace_tab (s by_ : string) : string :=
  match s with
  | "" => ""
  | String c s' =>
      if Ascii.eqb c TAB then by_ ++ replace_tab s' by_
      else String c (replace_tab s' by_)
  end.

(** ["\n".join(lines)]. *)
Definition join_nl (lines : list string) : string := String.concat nl lines.

(** [str(n)] for an integer. *)
Definition str_of_int (n : Z) : string := NilEmpty.string_of_int (Z.to_int n).

(** ["%<width>d" % n]: the decimal numeral, right-justified with
    spaces to at least [width] characters. *)
Definition format_d (width n : Z) : string :=
  let d := str_of_int n in
  spaces (width - len d) ++ d.

(** [n in l] for a list of integers. *)
Definition mem (n : Z) (l : list Z) : bool := existsb (Z.eqb n) l.

(** The characters that [int] skips around a numeral, among the code
    points below 256. *)
Definition int_space (c : ascii) : bool :=
  let k := nat_of_ascii c in
  (Nat.leb 9 k && Nat.leb k 13) || Nat.eqb k 32 || Nat.eqb k 133
  || Nat.eqb k 160.

Definition is_digit (c : ascii) : bool :=
  let k := nat_of_ascii c in Nat.leb 48 k && Nat.leb k 57.

Definition digit_value (c : ascii) : Z := Z.of_nat (nat_of_ascii c) - 48.

(** The digits of a decimal literal, single underscores allowed
    between digits. *)
Fixpoint digits (s : string) (acc : Z) (after_digit : bool) : option Z :=
  match s with
  | "" => if after_digit then Some acc else None
  | String c s' =>
      if is_digit c then digits s' (10 * acc + digit_value c) true
      else if Ascii.eqb c "_"%char && after_digit then digits s' acc false
      else None
  end.

(** [int(s)] for a string: [None] is [ValueError]. *)
Definition int_of_str (s : string) : option Z :=
  match rstrip_by int_space (lstrip_by int_space s) with
  | String "+"%char r => digits r 0 false
  | String "-"%char r => option_map Z.opp (digits r 0 false)
  | t => digits t 0 false
  end.

(** [range(lo, hi)]. *)
Definition range (lo hi : Z) : list Z :=
  map (fun i => lo + Z.of_nat i) (seq 0 (Z.to_nat (hi - lo))).

End Py.

Import Py.

(** ** Exceptions, results and the log *)

(** The exception classes that the module raises, catches or lets
    through.  [ValueError] stands for the class and its subclasses other
    than [UnicodeError] (pygments' [ClassNotFound] is one); [IOError] is
    Python 3's [OSError]; [SystemMessage] is what docutils' reporter
    produces for a severe message. *)
Inductive exn : Type :=
| NameError (name : string)
| ValueError (msg : string)
| UnicodeError
| IOError
| RuntimeError (msg : string)
| SystemMessage (msg : string)
| OtherError (cls : string).

(** [except ValueError]: [UnicodeError] is a subclass of [ValueError]. *)
Definition is_ValueError (e : exn) : bool :=
  match e with ValueError _ | UnicodeError => true | _ => false end.

(** [except IOError]. *)
Definition is_IOError (e : exn) : bool :=
  match e with IOError => true | _ => false end.

(** [except (IOError, UnicodeError)]. *)
Definition is_IOError_or_UnicodeError (e : exn) : bool :=
  match e with IOError | UnicodeError => true | _ => false end.

Inductive result (A : Type) : Type :=
| Return (a : A)
| Raise (e : exn).
Arguments Return {A} a.
Arguments Raise {A} e.

Definition bind {A B : Type} (r : result A) (f : A -> result B) : result B :=
  match r with
  | Return a => f a
  | Raise e => Raise e
  end.

Notation "x <- r ;; k" := (bind r (fun x => k))
  (at level 61, r at next level, right associativity).

(** Records of [rst2pdf.log.log]. *)
Inductive level : Type := INFO | ERROR.
Definition log_record : Type := (level * string)%type.

(** ** Directive options

    [code_block_directive.options] gives every option its conversion
    function, so each key has a fixed type; a key absent from the
    [options] dictionary is [None]. *)
Record options : Type := {
  include : option string;          (* directives.unchanged_required *)
  encoding : option string;         (* directives.encoding *)
  start_at : option string;         (* 'start-at' *)
  start_after : option string;      (* 'start-after' *)
  end_at : option string;           (* 'end-at' *)
  end_before : option string;       (* 'end-before' *)
  linenos : option string;          (* directives.unchanged *)
  linenos_offset : option Z;        (* zero_or_positive_int *)
  tab_width : option string;        (* 'tab-width', directives.unchanged *)
  tabsize : option Z;               (* directives.positive_int *)
  hl_lines : option (list Z);       (* directives.positive_int_list *)
  emphasize_lines : option (list Z);(* 'emphasize-lines' *)
  lexer_options : list (string * string) (* the remaining, lexer-specific keys *)
}.

Definition no_options : options :=
  {| include := None; encoding := None; start_at := None;
     start_after := None; end_at := None; end_before := None;
     linenos := None; linenos_offset := None; tab_width := None;
     tabsize := None; hl_lines := None; emphasize_lines := None;
     lexer_options := [] |}.

(** ** Span extraction (the [include] branch of [code_block_directive]) *)

Inductive anchor : Type := StartAt | StartAfter | EndAt | EndBefore.

Definition anchor_name (a : anchor) : string :=
  match a with
  | StartAt => "start-at"
  | StartAfter => "start-after"
  | EndAt => "end-at"
  | EndBefore => "end-before"
  end.

(** [options.get(name, None)]. *)
Definition anchor_option (o : options) (a : anchor) : option string :=
  match a with
  | StartAt => start_at o
  | StartAfter => start_after o
  | EndAt => end_at o
  | EndBefore => end_before o
  end.

(** The message handed to [state_machine.reporter.severe]. *)
Definition not_found_message (a : anchor) (text : string) : string :=
  "Problem with " ++ dq ++ anchor_name a ++ dq ++ " option of " ++ dq ++ text
  ++ dq ++ " code-block directive:" ++ nl ++ "Text not found.".

(** [raise state_machine.reporter.severe(...)]: the reporter is handed
    the message and control leaves the directive with an exception. *)
Definition severe {A : Type} (a : anchor) (text : string) : result A :=
  Raise (SystemMessage (not_found_message a text)).

(** [for char in content[after_index:0:-1]: if char == '\n' or char ==
    '\r': break; after_index -= 1]. *)
Fixpoint back_to_line_break (chars : list ascii) (after_index : Z) : Z :=
  match chars with
  | [] => after_index
  | char :: rest =>
      if Ascii.eqb char LF || Ascii.eqb char CR then after_index
      else back_to_line_break rest (after_index - 1)
  end.

(** [for char in content[after_index:]: if char == '\n': break;
    after_index += 1]. *)
Fixpoint forward_to_line_break (chars : string) (after_index : Z) : Z :=
  match chars with
  | "" => after_index
  | String char rest =>
      if Ascii.eqb char LF then after_index
      else forward_to_line_break rest (after_index + 1)
  end.

(** The state of the extraction: [(content, line_offset)]. *)
Definition span : Type := (string * Z)%type.

(** Lines 164-188: [start-at].  [content] is narrowed before
    [line_offset] is computed from it. *)
Definition apply_start_at (o : options) (st : span) : result span :=
  let '(content, line_offset) := st in
  match start_at o with
  | None => Return st
  | Some after_text =>
      if truthy after_text then
        let after_index := find content after_text in
        if after_index <? 0 then severe StartAt after_text
        else
          let after_index :=
            back_to_line_break (slice_rev content after_index 0) after_index in
          let content := slice content (Some after_index) None in
          let line_offset :=
            Z.of_nat (List.length (splitlines (slice content None (Some after_index)))) - 1 in
          Return (content, line_offset)
      else Return st
  end.

(** Lines 190-209: [start-after]. *)
Definition apply_start_after (o : options) (st : span) : result span :=
  let '(content, line_offset) := st in
  match start_after o with
  | None => Return st
  | Some after_text =>
      if truthy after_text then
        let after_index := find content after_text in
        if after_index <? 0 then severe StartAfter after_text
        else
          let after_index := after_index + len after_text in
          let after_index :=
            forward_to_line_break (slice content (Some after_index) None) after_index in
          let line_offset :=
            Z.of_nat (List.length (splitlines (slice content None (Some after_index)))) in
          let content := slice content (Some after_index) None in
          Return (content, line_offset)
      else Return st
  end.

(** Lines 212-221: [end-at]. *)
Definition apply_end_at (o : options) (st : span) : result span :=
  let '(content, line_offset) := st in
  match end_at o with
  | None => Return st
  | Some before_text =>
      if truthy before_text then
        let before_index := find content before_text in
        if before_index <? 0 then severe EndAt before_text
        else Return (slice content None (Some (before_index + len before_text)),
                     line_offset)
      else Return st
  end.

(** Lines 223-232: [end-before]. *)
Definition apply_end_before (o : options) (st : span) : result span :=
  let '(content, line_offset) := st in
  match end_before o with
  | None => Return st
  | Some before_text =>
      if truthy before_text then
        let before_index := find content before_text in
        if before_index <? 0 then severe EndBefore before_text
        else Return (slice content None (Some before_index), line_offset)
      else Return st
  end.

(** Lines 153-232: [line_offset = 0], and the four anchors in their fixed
    order when [content] is not empty. *)
Definition extract (o : options) (content : string) : result span :=
  let line_offset := 0 in
  if truthy content then
    st <- apply_start_at o (content, line_offset) ;;
    st <- apply_start_after o st ;;
    st <- apply_end_at o st ;;
    apply_end_before o st
  else Return (content, line_offset).

(** ** Generators

    A generator that is run to its end is the list of what it yielded
    together with the way iteration ended: [None] when it was exhausted,
    [Some e] when exception [e] left it. *)
Record gen (A : Type) : Type := {
  yielded : list A;
  outcome : option exn
}.
Arguments yielded {A} g.
Arguments outcome {A} g.

(** [iter(l)] for a list. *)
Definition of_list {A : Type} (l : list A) : gen A :=
  {| yielded := l; outcome := None |}.

(** A generator body that raises at once. *)
Definition raising {A : Type} (e : exn) : gen A :=
  {| yielded := []; outcome := Some e |}.

(** [yield a], then the rest of the body. *)
Definition yield {A : Type} (a : A) (g : gen A) : gen A :=
  {| yielded := a :: yielded g; outcome := outcome g |}.

(** ** DocutilsInterface *)

(** A pygments token type is the path of names below [Token]
    ([Token.Name.Function] is [["Name"; "Function"]]).  Token types are
    created once and cached, so [is] on them is equality of paths. *)
Definition ttype : Type := list string.

Definition ttype_eq_dec : forall a b : ttype, {a = b} + {a <> b} :=
  list_eq_dec string_dec.

Definition ttype_is (a b : ttype) : bool :=
  if ttype_eq_dec a b then true else false.

Definition token : Type := (ttype * string)%type.

(** A lexer is what [pygments.lex(code, lexer)] does with it. *)
Definition lexer : Type := string -> gen token.

(** What [import pygments] and the two [from pygments... import] lines
    bind when they succeed. *)
Record pygments_module : Type := {
  get_lexer_by_name : string -> options -> result lexer;
  _get_ttype_class : ttype -> string
}.

(** The three imports sit in [try: ... except ImportError: pass]: when
    pygments is missing ([None]) the names stay unbound, and evaluating
    one of them raises [NameError]. *)
Definition global_get_lexer_by_name (pygments : option pygments_module)
  : result (string -> options -> result lexer) :=
  match pygments with
  | Some m => Return (get_lexer_by_name m)
  | None => Raise (NameError "get_lexer_by_name")
  end.

Definition global_pygments (pygments : option pygments_module)
  : result pygments_module :=
  match pygments with
  | Some m => Return m
  | None => Raise (NameError "pygments")
  end.

Definition global_get_ttype_class (pygments : option pygments_module)
  : result (ttype -> string) :=
  match pygments with
  | Some m => Return (_get_ttype_class m)
  | None => Raise (NameError "_get_ttype_class")
  end.

Section DocutilsInterface.

Variable pygments : option pygments_module.
(** [self.code], [self.language], [self.custom_args]. *)
Variables (code language : string) (custom_args : options).

(** [DocutilsInterface.lex]: the records logged and the token
    generator, or the exception that leaves the method. *)
Definition lex : list log_record * result (gen token) :=
  let attempt : result lexer :=
    if truthy language && negb (String.eqb (lower language) "none") then
      f <- global_get_lexer_by_name pygments ;;
      f (lower language) custom_args
    else
      f <- global_get_lexer_by_name pygments ;;
      f "text" custom_args in
  let '(logged, chosen) :=
    match attempt with
    | Return l => ([], Return l)
    | Raise e =>
        if is_ValueError e then
          ([(INFO, "no pygments lexer for " ++ language ++ ", using 'text'")],
           f <- global_get_lexer_by_name pygments ;; f "text" no_options)
        else ([], Raise e)
    end in
  (logged,
   l <- chosen ;;
   _ <- global_pygments pygments ;;
   Return (l code)).

(** The loop of [join], holding [(lasttype, lastval)]; [rest] is what
    the iterator still yields and [fin] how it ends. *)
Fixpoint join_loop (lasttype : ttype) (lastval : string)
         (rest : list token) (fin : option exn) : gen token :=
  match rest with
  | [] =>
      match fin with
      | None => yield (lasttype, lastval) (of_list [])
      | Some e => raising e
      end
  | (ttype, value) :: rest' =>
      if ttype_is ttype lasttype then
        join_loop lasttype (lastval ++ value) rest' fin
      else
        yield (lasttype, lastval) (join_loop ttype value rest' fin)
  end.

(** [DocutilsInterface.join].  [next(tokens)] on an exhausted iterator
    raises [StopIteration] inside the generator body, which reaches the
    consumer as [RuntimeError] (PEP 479). *)
Definition join (tokens : gen token) : gen token :=
  match yielded tokens with
  | [] =>
      match outcome tokens with
      | None => raising (RuntimeError "generator raised StopIteration")
      | Some e => raising e
      end
  | (lasttype, lastval) :: rest => join_loop lasttype lastval rest (outcome tokens)
  end.

(** What iterating a [DocutilsInterface] does. *)
Record classified : Type := {
  logged : list log_record;
  tokens : gen (string * string)
}.

(** [for ttype, value in self.join(tokens): yield
    (_get_ttype_class(ttype), value)]. *)
Fixpoint classify_loop (items : list token) (fin : option exn)
  : gen (string * string) :=
  match items with
  | [] => {| yielded := []; outcome := fin |}
  | (ttype, value) :: rest =>
      match global_get_ttype_class pygments with
      | Return f => yield (f ttype, value) (classify_loop rest fin)
      | Raise e => raising e
      end
  end.

(** [DocutilsInterface.__iter__]. *)
Definition iter : classified :=
  match lex with
  | (l, Raise e) =>
      if is_IOError e then
        {| logged := (l ++ [(INFO, "Pygments lexer not found, using fallback")])%list;
           tokens := yield ("", code) (of_list []) |}
      else {| logged := l; tokens := raising e |}
  | (l, Return toks) =>
      let merged := join toks in
      {| logged := l; tokens := classify_loop (yielded merged) (outcome merged) |}
  end.

End DocutilsInterface.

(** ** The emitted document tree *)

(** [docutils.nodes.inline(rawsource, text, classes=...)] and
    [docutils.nodes.Text(data, rawsource)]. *)
Inductive node : Type :=
| inline (rawsource text : string) (classes : list string)
| Text (data rawsource : string).

(** [docutils.nodes.literal_block(classes=...)] with the children added
    to it by [+=]. *)
Record literal_block : Type := {
  classes : list string;
  children : list node
}.

(** What one [code_block += ...] site appends.  [lineno] records the
    value of the variable [lineno] at that moment; it is not part of
    the node. *)
Inductive fragment : Type :=
| FirstLineNo (ln : Z) (linenumber_cls : string)
    (* line 271: inline(fstr[1:] % lineno, classes=[linenumber_cls]) *)
| FirstPiece (lineno : Z) (chunk c : string)
    (* line 286: inline(values[0], classes=[c]) *)
| NumberedPiece (ln : Z) (linenumber_cls chunk c : string)
    (* lines 298-301: inline(fstr % ln, classes=[linenumber_cls]), then
       inline(chunk, classes=[c]) *)
| Plain (lineno : Z) (value : string)
    (* line 308: Text(value) *)
| Styled (lineno : Z) (value cls : string).
    (* line 312: inline(value, classes=["pygments-" + cls]) *)

(** The nodes of a fragment; [fstr] is ["\n%<lnwidth>d "]. *)
Definition to_nodes (lnwidth : Z) (f : fragment) : list node :=
  match f with
  | FirstLineNo ln linenumber_cls =>
      let t := format_d lnwidth ln ++ " " in
      [inline t t [linenumber_cls]]
  | FirstPiece _ chunk c => [inline chunk chunk [c]]
  | NumberedPiece ln linenumber_cls chunk c =>
      let t := nl ++ format_d lnwidth ln ++ " " in
      [inline t t [linenumber_cls]; inline chunk chunk [c]]
  | Plain _ value => [Text value value]
  | Styled _ value cls => [inline value value ["pygments-" ++ cls]]
  end.

(** ** Line annotation (lines 263-312) *)

Definition unstyled_tokens : list string := [""].

Section Annotate.

(** [withln], [hl_lines], [total_lines]. *)
Variables (withln : bool) (hl_lines : list Z) (total_lines : Z).

(** [hl_lines and ln not in hl_lines]. *)
Definition not_highlighted (ln : Z) : bool :=
  match hl_lines with
  | [] => false
  | _ => negb (mem ln hl_lines)
  end.

(** The body of [for chunk, ln in list(zip(values, linenos))[1:]]. *)
Definition numbered_piece (p : string * Z) : list fragment :=
  let '(chunk, ln) := p in
  if ln <=? total_lines then
    let '(linenumber_cls, c) :=
      if not_highlighted ln then ("pygments-diml", "pygments-diml")
      else ("linenumber", "") in
    [NumberedPiece ln linenumber_cls chunk c]
  else [].

(** The body of [for cls, value in DocutilsInterface(...)]: the new
    value of [lineno] and what is appended to [code_block]. *)
Definition annotate_token (lineno : Z) (tok : string * string)
  : Z * list fragment :=
  let '(cls, value) := tok in
  let cls := if not_highlighted lineno then "diml" else cls in
  if withln && contains_nl value then
    let values := split_nl value in
    let c := if negb (String.eqb cls "") then "pygments-diml" else "" in
    let linenos := range lineno (lineno + Z.of_nat (List.length values)) in
    (lineno + (Z.of_nat (List.length values) - 1),
     FirstPiece lineno (hd "" values) c
       :: flat_map numbered_piece (tl (combine values linenos)))
  else if existsb (String.eqb cls) unstyled_tokens then
    ((if contains_nl value then lineno + count_nl value else lineno),
     [Plain lineno value])
  else
    ((if contains_nl value then lineno + count_nl value else lineno),
     [Styled lineno value cls]).

(** The loop over the classified tokens. *)
Fixpoint annotate_tokens (lineno : Z) (toks : list (string * string))
  : Z * list fragment :=
  match toks with
  | [] => (lineno, [])
  | tok :: rest =>
      let '(lineno', out) := annotate_token lineno tok in
      let '(final, more) := annotate_tokens lineno' rest in
      (final, (out ++ more)%list)
  end.

(** The leading line number (lines 265-273), then the loop. *)
Definition annotate (lineno : Z) (toks : list (string * string))
  : Z * list fragment :=
  let first :=
    if withln then
      [FirstLineNo lineno
         (if not_highlighted lineno then "pygments-diml" else "linenumber")]
    else [] in
  let '(final, out) := annotate_tokens lineno toks in
  (final, (first ++ out)%list).

End Annotate.

(** ** code_block_directive *)

Section Directive.

(** Whether pygments could be imported, and
    [codecs.open(path, 'r', encoding).read()]. *)
Variable pygments : option pygments_module.
Variable read_file : string -> string -> result string.

(** Lines 143-236: the text to render and the value of [line_offset],
    which is [None] where [options.get('linenos_offset')] is. *)
Definition load_content (o : options) (content : list string) (lineno : Z)
  : list log_record * result (string * option Z) :=
  match include o with
  | Some path =>
      let encoding := match encoding o with Some e => e | None => "utf-8" end in
      let '(logged, content) :=
        match read_file path encoding with
        | Return text => ([], Return (rstrip text))
        | Raise e =>
            if is_IOError_or_UnicodeError e then
              ([(ERROR, "Error reading file: " ++ dq ++ path ++ dq ++ " L "
                          ++ str_of_int lineno)],
               Return "")
            else ([], Raise e)
        end in
      (logged,
       content <- content ;;
       st <- extract o content ;;
       Return (fst st, Some (snd st)))
  | None => ([], Return (join_nl content, linenos_offset o))
  end.

(** Lines 238-241. *)
Definition tab_width_of (o : options) : result Z :=
  match tabsize o with
  | Some tabw => Return tabw
  | None =>
      match tab_width o with
      | None => Return 8
      | Some s =>
          match int_of_str s with
          | Some tabw => Return tabw
          | None => Raise (ValueError "invalid literal for int() with base 10")
          end
      end
  end.

(** Lines 246-249. *)
Definition highlighted_lines (o : options) : list Z :=
  match (match hl_lines o with Some l => l | None => [] end) with
  | [] => match emphasize_lines o with Some l => l | None => [] end
  | hl => hl
  end.

(** Lines 252-253, and the use of [line_offset] as a number after them. *)
Definition numbering_offset (o : options) (line_offset : option Z) : result Z :=
  match linenos_offset o with
  | None => Return 0
  | Some _ =>
      match line_offset with
      | Some n => Return n
      | None => Raise (OtherError "TypeError")
      end
  end.

(** Lines 255-258: [arguments[0]], or ['text'] on [IndexError]. *)
Definition language_of (arguments : list string) : string :=
  match arguments with a :: _ => a | [] => "text" end.

(** ['linenos' in options]. *)
Definition with_linenos (o : options) : bool :=
  match linenos o with Some _ => true | None => false end.

(** Lines 238-314, from the loaded [content] and [line_offset]. *)
Definition render (arguments : list string) (o : options)
           (content : string) (line_offset : option Z)
  : list log_record * result (list literal_block) :=
  match tab_width_of o with
  | Raise e => ([], Raise e)
  | Return tabw =>
      let content := replace_tab content (spaces tabw) in
      let hl := highlighted_lines o in
      let withln := with_linenos o in
      let language := language_of arguments in
      match numbering_offset o line_offset with
      | Raise e => ([], Raise e)
      | Return line_offset =>
          let lineno := 1 + line_offset in
          let total_lines := count_nl content + 1 + line_offset in
          let lnwidth := len (str_of_int total_lines) in
          let classified := iter pygments content language o in
          (logged classified,
           match outcome (tokens classified) with
           | Some e => Raise e
           | None =>
               let out :=
                 snd (annotate withln hl total_lines lineno
                        (yielded (tokens classified))) in
               Return [ {| classes := ["code"; language];
                           children := flat_map (to_nodes lnwidth) out |} ]
           end)
      end
  end.

Definition code_block_directive (arguments : list string) (o : options)
           (content : list string) (lineno : Z)
  : list log_record * result (list literal_block) :=
  match load_content o content lineno with
  | (logged, Raise e) => (logged, Raise e)
  | (logged, Return (content, line_offset)) =>
      let '(logged', r) := render arguments o content line_offset in
      ((logged ++ logged')%list, r)
  end.

End Directive.

(** ** Notions used to state the properties *)

(** [sub] occurs in [s] as a substring. *)
Definition occurs (sub s : string) : Prop :=
  exists pre post, s = pre ++ sub ++ post.

(** The state in which [extract] reaches anchor [a] on a non-empty
    [content]: the anchors before it have been applied. *)
Definition working (o : options) (content : string) (a : anchor) : result span :=
  match a with
  | StartAt => Return (content, 0)
  | StartAfter => apply_start_at o (content, 0)
  | EndAt =>
      st <- apply_start_at o (content, 0) ;;
      apply_start_after o st
  | EndBefore =>
      st <- apply_start_at o (content, 0) ;;
      st <- apply_start_after o st ;;
      apply_end_at o st
  end.

(** The number of line feeds in the values of a token stream. *)
Fixpoint line_breaks (toks : list (string * string)) : Z :=
  match toks with
  | [] => 0
  | (_, value) :: rest => count_nl value + line_breaks rest
  end.

(** ["".join(value for _, value in tokens)]. *)
Fixpoint concat_values (toks : list token) : string :=
  match toks with
  | [] => ""
  | (_, value) :: rest => value ++ concat_values rest
  end.

(** No two neighbours in [l] have the same type, and the first differs
    from [t]. *)
Fixpoint alternating (t : ttype) (l : list token) : Prop :=
  match l with
  | [] => True
  | (t', _) :: l' => t' <> t /\ alternating t' l'
  end.

(** A fragment that carries a line number carries one up to [total]. *)
Definition numbered_within (total : Z) (f : fragment) : Prop :=
  match f with
  | FirstLineNo ln _ => ln <= total
  | NumberedPiece ln _ _ _ => ln <= total
  | _ => True
  end.

(** ** Sample inputs *)

(** [:include: f.py] with [:start-at: def foo]. *)
Definition start_at_def_foo : options :=
  {| include := Some "f.py"; encoding := None; start_at := Some "def foo";
     start_after := None; end_at := None; end_before := None;
     linenos := None; linenos_offset := None; tab_width := None;
     tabsize := None; hl_lines := None; emphasize_lines := None;
     lexer_options := [] |}.

(** The same with an end anchor. *)
Definition from_def_foo_to (text : string) : options :=
  {| include := Some "f.py"; encoding := None; start_at := Some "def foo";
     start_after := None; end_at := Some text; end_before := None;
     linenos := None; linenos_offset := None; tab_width := None;
     tabsize := None; hl_lines := None; emphasize_lines := None;
     lexer_options := [] |}.

(** Scenario 3 of the specification. *)
Definition scenario3 : string :=
  "x = 1" ++ nl ++ "def foo():" ++ nl ++ "    pass" ++ nl.

(** A file in which [def foo] is on the fourth line. *)
Definition foo_on_line_four : string :=
  "a" ++ nl ++ "b" ++ nl ++ "c" ++ nl ++ "def foo():" ++ nl ++ "    pass" ++ nl
  ++ "end".

(** The classified tokens of a three-line Python text whose second line
    opens a two-line string literal. *)
Definition docstring_tokens : list (string * string) :=
  [("n", "a"); ("", nl); ("sd", "'''b" ++ nl ++ "c'''"); ("", nl)].

(** Three lines in one unstyled token, the last one terminated. *)
Definition three_lines : list (string * string) :=
  [("", "line1" ++ nl ++ "line2" ++ nl ++ "line3" ++ nl)].

(** A pygments that knows the lexer [text] only; the lexer returns its
    input as one [Token.Text] token. *)
Definition text_only : pygments_module :=
  {| get_lexer_by_name := fun name _ =>
       if String.eqb name "text"
       then Return (fun code => of_list [(["Text"], code)])
       else Raise (ValueError "no lexer for alias found");
     _get_ttype_class := fun _ => "" |}.

(** A file system that holds [f.py], the text of scenario 3. *)
Definition only_f_py (path encoding : string) : result string :=
  if String.eqb path "f.py" then Return scenario3 else Raise IOError.

(** [:include: f.py], [:start-at: def foo] and [:linenos:], without
    [:linenos_offset:]. *)
Definition numbered_from_def_foo : options :=
  {| include := Some "f.py"; encoding := None; start_at := Some "def foo";
     start_after := None; end_at := None; end_before := None;
     linenos := Some ""; linenos_offset := None; tab_width := None;
     tabsize := None; hl_lines := None; emphasize_lines := None;
     lexer_options := [] |}.

(** ** Option converters (lines 324-348) *)

Section Converters.

(** [docutils.parsers.rst.directives.positive_int], which the module
    imports. *)
Variable positive_int : string -> result Z.

(** [zero_or_positive_int]; [None] is Python's [None]. *)
Definition zero_or_positive_int (argument : option string) : result Z :=
  match argument with
  | None => Return 0
  | Some a => if String.eqb a "0" then Return 0 else positive_int a
  end.

End Converters.

(** [c in s] for a character. *)
Fixpoint contains_char (c : ascii) (s : string) : bool :=
  match s with
  | "" => false
  | String d s' => Ascii.eqb d c || contains_char c s'
  end.

(** [s.split(sep)] for a one-character separator. *)
Fixpoint split_on (sep : ascii) (s : string) : list string :=
  match s with
  | "" => [""]
  | String c s' =>
      if Ascii.eqb c sep then "" :: split_on sep s'
      else match split_on sep s' with
           | h :: t => String c h :: t
           | [] => [String c ""]
           end
  end.

(** [s.split()]: the maximal runs of characters that are not
    whitespace; [cur] holds the current run, reversed. *)
Fixpoint split_ws_from (cur : list ascii) (s : string) : list string :=
  match s with
  | "" => match cur with
          | [] => []
          | _ => [string_of_list_ascii (rev cur)]
          end
  | String c s' =>
      if isspace c then
        match cur with
        | [] => split_ws_from [] s'
        | _ => string_of_list_ascii (rev cur) :: split_ws_from [] s'
        end
      else split_ws_from (c :: cur) s'
  end.

Definition split_ws (s : string) : list string := split_ws_from [] s.

(** [string_list]. *)
Definition string_list (argument : string) : list string :=
  if contains_char ","%char argument then split_on ","%char argument
  else split_ws argument.

(** ** Further notions used to state properties *)

(** Every character of [s] satisfies [p]. *)
Fixpoint all_chars (p : ascii -> bool) (s : string) : bool :=
  match s with
  | "" => true
  | String c s' => p c && all_chars p s'
  end.

(** The text that a fragment contributes to the block: a numbered piece
    stands on a new line, a line number by itself is no text. *)
Definition fragment_text (f : fragment) : string :=
  match f with
  | FirstLineNo _ _ => ""
  | FirstPiece _ chunk _ => chunk
  | NumberedPiece _ _ chunk _ => nl ++ chunk
  | Plain _ value => value
  | Styled _ value _ => value
  end.

Fixpoint fragments_text (fs : list fragment) : string :=
  match fs with
  | [] => ""
  | f :: rest => fragment_text f ++ fragments_text rest
  end.

(** ["".join(value for _, value in tokens)] for classified tokens. *)
Fixpoint values_text (toks : list (string * string)) : string :=
  match toks with
  | [] => ""
  | (_, value) :: rest => value ++ values_text rest
  end.

(** The line numbers that a list of fragments shows, in order. *)
Fixpoint line_numbers (fs : list fragment) : list Z :=
  match fs with
  | [] => []
  | FirstLineNo ln _ :: rest => ln :: line_numbers rest
  | NumberedPiece ln _ _ _ :: rest => ln :: line_numbers rest
  | _ :: rest => line_numbers rest
  end.

(** The classes of a line number, and of the piece numbered with it,
    are those of a line that is or is not highlighted. *)
Definition number_classes_follow (hl : list Z) (f : fragment) : Prop :=
  match f with
  | FirstLineNo ln linenumber_cls =>
      linenumber_cls
      = (if not_highlighted hl ln then "pygments-diml" else "linenumber")
  | NumberedPiece ln linenumber_cls _ c =>
      linenumber_cls
      = (if not_highlighted hl ln then "pygments-diml" else "linenumber")
      /\ c = (if not_highlighted hl ln then "pygments-diml" else "")
  | _ => True
  end.

(** A fragment that carries a line number shows it in exactly [width]
    characters. *)
Definition number_has_width (width : Z) (f : fragment) : Prop :=
  match f with
  | FirstLineNo ln _ => len (format_d width ln) = width
  | NumberedPiece ln _ _ _ => len (format_d width ln) = width
  | _ => True
  end.

(** The text of a node, and of a list of nodes. *)
Definition node_text (n : node) : string :=
  match n with
  | inline _ text _ => text
  | Text data _ => data
  end.

Fixpoint nodes_text (ns : list node) : string :=
  match ns with
  | [] => ""
  | n :: rest => node_text n ++ nodes_text rest
  end.

(** No two neighbours in [l] have the same type. *)
Definition no_adjacent_same (l : list token) : Prop :=
  match l with
  | [] => True
  | (t, _) :: l' => alternating t l'
  end.

(** The node of a token when neither line numbers nor highlights are
    asked for. *)
Definition plain_node (tok : string * string) : node :=
  let '(cls, value) := tok in
  if String.eqb cls "" then Text value value
  else inline value value ["pygments-" ++ cls].

(** A [positive_int] in the manner of docutils: [int(argument)], and
    [ValueError] below 1. *)
Definition sample_positive_int (argument : string) : result Z :=
  match int_of_str argument with
  | Some v =>
      if v <? 1 then Raise (ValueError "negative or zero value; must be positive integer")
      else Return v
  | None => Raise (ValueError "invalid literal for int() with base 10")
  end.

(** A pygments whose lexers all end with [IOError] after one token. *)
Definition breaking_lexer : pygments_module :=
  {| get_lexer_by_name := fun _ _ =>
       Return (fun code => {| yielded := [(["Text"], code)]; outcome := Some IOError |});
     _get_ttype_class := fun _ => "" |}.

(** [:include: f.py] with one anchor other than [start-at]. *)
Definition only_start_after (text : string) : options :=
  {| include := Some "f.py"; encoding := None; start_at := None;
     start_after := Some text; end_at := None; end_before := None;
     linenos := None; linenos_offset := None; tab_width := None;
     tabsize := None; hl_lines := None; emphasize_lines := None;
     lexer_options := [] |}.

Definition only_end_at (text : string) : options :=
  {| include := Some "f.py"; encoding := None; start_at := None;
     start_after := None; end_at := Some text; end_before := None;
     linenos := None; linenos_offset := None; tab_width := None;
     tabsize := None; hl_lines := None; emphasize_lines := None;
     lexer_options := [] |}.

Definition only_end_before (text : string) : options :=
  {| include := Some "f.py"; encoding := None; start_at := None;
     start_after := None; end_at := None; end_before := Some text;
     linenos := None; linenos_offset := None; tab_width := None;
     tabsize := None; hl_lines := None; emphasize_lines := None;
     lexer_options := [] |}.

(** A file system without files. *)
Definition no_files (path encoding : string) : result string := Raise IOError.

(** ** Notions and samples for the words of [string_list] and for the
    last numbered line *)

(** [s] is laid out as: whitespace, the first entry, then a remainder
    that is empty or begins with a whitespace character and is laid out
    in the same way for the entries left; after the last entry only
    whitespace remains. *)
Fixpoint words_layout (entries : list string) (s : string) : Prop :=
  match entries with
  | [] => all_chars isspace s = true
  | entry :: rest =>
      exists blanks tail,
        s = blanks ++ entry ++ tail
        /\ all_chars isspace blanks = true
        /\ (tail = "" \/ exists c tail', tail = String c tail' /\ isspace c = true)
        /\ words_layout rest tail
  end.




(** * Properties *)

(** ** Facts about the built-ins *)

Section BuiltinFacts.

Lemma split_nl_nonempty (s : string) : split_nl s <> [].
Proof.
  destruct s as [|c s]; simpl; [discriminate|].
  destruct (Ascii.eqb c LF); [discriminate|].
  destruct (split_nl s); discriminate.
Qed.

(** [len(s.split("\n")) == s.count("\n") + 1]. *)
Lemma split_nl_length (s : string) :
  Z.of_nat (List.length (split_nl s)) = count_nl s + 1.
Proof.
  induction s as [|c s IH]; simpl; [reflexivity|].
  destruct (Ascii.eqb c LF).
  - simpl List.length. lia.
  - pose proof (split_nl_nonempty s) as Hne.
    destruct (split_nl s) as [|h t]; [congruence|].
    simpl List.length in *. lia.
Qed.

Lemma count_nl_nonneg (s : string) : 0 <= count_nl s.
Proof.
  induction s as [|c s IH]; simpl; [lia|].
  destruct (Ascii.eqb c LF); lia.
Qed.

(** A string without a line feed counts none. *)
Lemma count_nl_without (s : string) :
  contains_nl s = false -> count_nl s = 0.
Proof.
  induction s as [|c s IH]; simpl; [reflexivity|].
  destruct (Ascii.eqb c LF); simpl; [discriminate|]. auto.
Qed.

Lemma append_assoc (a b c : string) : (a ++ b) ++ c = a ++ b ++ c.
Proof. induction a as [|x a IH]; simpl; [reflexivity | rewrite IH; reflexivity]. Qed.

Lemma startswith_append (p post : string) : startswith (p ++ post) p = true.
Proof.
  induction p as [|a p IH]; simpl.
  - destruct post; reflexivity.
  - rewrite Ascii.eqb_refl. exact IH.
Qed.

Lemma startswith_inv (s p : string) :
  startswith s p = true -> exists post, s = p ++ post.
Proof.
  revert s. induction p as [|a p IH]; intros s H.
  - exists s. reflexivity.
  - destruct s as [|b s]; simpl in H; [discriminate|].
    apply andb_true_iff in H. destruct H as [Hab Hrest].
    apply Ascii.eqb_eq in Hab. subst b.
    destruct (IH _ Hrest) as [post ->]. exists post. reflexivity.
Qed.

Lemma find_from_cons (c : ascii) (s sub : string) (i : Z) :
  find_from (String c s) sub i
  = if startswith (String c s) sub then i else find_from s sub (i + 1).
Proof. reflexivity. Qed.

Lemma find_from_found (s sub : string) (i : Z) :
  0 <= i -> occurs sub s -> 0 <= find_from s sub i.
Proof.
  intros Hi [pre [post ->]]. revert i Hi.
  induction pre as [|c pre IH]; intros i Hi.
  - simpl. destruct sub as [|a sub]; simpl.
    + destruct post; simpl; exact Hi.
    + rewrite Ascii.eqb_refl, startswith_append. simpl. exact Hi.
  - simpl append. rewrite find_from_cons.
    destruct (startswith (String c (pre ++ sub ++ post)) sub); [exact Hi|].
    apply IH. lia.
Qed.

Lemma find_from_absent (s sub : string) (i : Z) :
  ~ occurs sub s -> find_from s sub i = -1.
Proof.
  revert i. induction s as [|c s IH]; intros i Hno.
  - destruct sub as [|a sub]; [|reflexivity].
    exfalso. apply Hno. exists "", "". reflexivity.
  - rewrite find_from_cons. destruct (startswith (String c s) sub) eqn:E.
    + exfalso. apply Hno. apply startswith_inv in E. destruct E as [post E].
      exists "", post. exact E.
    + apply IH. intros [pre [post E']]. apply Hno.
      exists (String c pre), post. simpl. rewrite E'. reflexivity.
Qed.

(** [s.find(sub) < 0] exactly when [sub] is not a substring of [s]. *)
Lemma find_negative_iff (s sub : string) :
  find s sub < 0 <-> ~ occurs sub s.
Proof.
  unfold find. split.
  - intros Hneg Hocc. pose proof (find_from_found s sub 0 ltac:(lia) Hocc). lia.
  - intros Hno. rewrite find_from_absent by exact Hno. lia.
Qed.

(** The empty string occurs everywhere, so an absent anchor is truthy. *)
Lemma absent_is_truthy (sub s : string) : ~ occurs sub s -> truthy sub = true.
Proof.
  intros Hno. destruct sub; [|reflexivity].
  exfalso. apply Hno. exists "", s. reflexivity.
Qed.

End BuiltinFacts.

(** ** Span extraction *)

Section ExtractFacts.

(** An anchor on the first line leaves [line_offset] at [-1]. *)
Example extract_anchor_on_first_line :
  extract start_at_def_foo ("def foo():" ++ nl ++ "    pass")
  = Return ("def foo():" ++ nl ++ "    pass", -1).
Proof. reflexivity. Qed.

(** C1 does not hold of the code.  With [start-at = "def foo"] and
    [end-at = "pass"], each occurring once and in this order, on a file
    whose fourth line holds [def foo], the returned span begins with the
    line break before that line, not with its first character, and
    [line_offset] is 1 although three lines precede it.  On scenario 3
    of the specification the span begins with the line break as well;
    there [line_offset] happens to be the number of lines skipped. *)
Theorem extract_start_at_keeps_line_break :
  extract (from_def_foo_to "pass") foo_on_line_four
  = Return (nl ++ "def foo():" ++ nl ++ "    pass", 1)
  /\ extract start_at_def_foo scenario3
     = Return (nl ++ "def foo():" ++ nl ++ "    pass" ++ nl, 1).
Proof. split; reflexivity. Qed.

(** C4 as stated fails: on empty content (an empty or unreadable
    included file) the anchors are not looked at, so a given
    [start-at] that does not occur raises nothing. *)
Lemma extract_empty_content_ignores_anchors :
  anchor_option start_at_def_foo StartAt = Some "def foo"
  /\ ~ occurs "def foo" ""
  /\ extract start_at_def_foo "" = Return ("", 0).
Proof.
  split; [reflexivity|]. split; [|reflexivity].
  intros [pre [post E]]. destruct pre; discriminate.
Qed.

Lemma apply_start_at_absent (o : options) (text w : string) (off : Z) :
  start_at o = Some text -> ~ occurs text w ->
  apply_start_at o (w, off) = severe StartAt text.
Proof.
  intros Hopt Hno. unfold apply_start_at. rewrite Hopt.
  rewrite (absent_is_truthy _ _ Hno).
  apply find_negative_iff in Hno. apply Z.ltb_lt in Hno. rewrite Hno.
  reflexivity.
Qed.

Lemma apply_start_after_absent (o : options) (text w : string) (off : Z) :
  start_after o = Some text -> ~ occurs text w ->
  apply_start_after o (w, off) = severe StartAfter text.
Proof.
  intros Hopt Hno. unfold apply_start_after. rewrite Hopt.
  rewrite (absent_is_truthy _ _ Hno).
  apply find_negative_iff in Hno. apply Z.ltb_lt in Hno. rewrite Hno.
  reflexivity.
Qed.

Lemma apply_end_at_absent (o : options) (text w : string) (off : Z) :
  end_at o = Some text -> ~ occurs text w ->
  apply_end_at o (w, off) = severe EndAt text.
Proof.
  intros Hopt Hno. unfold apply_end_at. rewrite Hopt.
  rewrite (absent_is_truthy _ _ Hno).
  apply find_negative_iff in Hno. apply Z.ltb_lt in Hno. rewrite Hno.
  reflexivity.
Qed.

Lemma apply_end_before_absent (o : options) (text w : string) (off : Z) :
  end_before o = Some text -> ~ occurs text w ->
  apply_end_before o (w, off) = severe EndBefore text.
Proof.
  intros Hopt Hno. unfold apply_end_before. rewrite Hopt.
  rewrite (absent_is_truthy _ _ Hno).
  apply find_negative_iff in Hno. apply Z.ltb_lt in Hno. rewrite Hno.
  reflexivity.
Qed.

(** C4, amended: on non-empty content, when the extraction reaches an
    anchor that is given and whose text does not occur in the working
    text left by the anchors before it, it ends with the severe message
    that names this option; no text is returned. *)
Theorem extract_absent_anchor_is_severe
  (o : options) (content : string) (a : anchor) (text w : string) (off : Z) :
  content <> "" ->
  anchor_option o a = Some text ->
  working o content a = Return (w, off) ->
  ~ occurs text w ->
  extract o content = Raise (SystemMessage (not_found_message a text)).
Proof.
  intros Hne Hopt Hwork Hno. unfold extract.
  assert (Ht : truthy content = true).
  { destruct content; [exfalso; apply Hne; reflexivity | reflexivity]. }
  rewrite Ht. cbv zeta.
  destruct a; cbn [anchor_option working] in Hopt, Hwork.
  - inversion Hwork; subst w off.
    rewrite (apply_start_at_absent o text content 0 Hopt Hno). reflexivity.
  - rewrite Hwork. cbn [bind].
    rewrite (apply_start_after_absent o text w off Hopt Hno). reflexivity.
  - destruct (apply_start_at o (content, 0)) as [st1|e];
      cbn [bind] in *; [|discriminate].
    rewrite Hwork. cbn [bind].
    rewrite (apply_end_at_absent o text w off Hopt Hno). reflexivity.
  - destruct (apply_start_at o (content, 0)) as [st1|e];
      cbn [bind] in *; [|discriminate].
    destruct (apply_start_after o st1) as [st2|e];
      cbn [bind] in *; [|discriminate].
    rewrite Hwork. cbn [bind].
    rewrite (apply_end_before_absent o text w off Hopt Hno). reflexivity.
Qed.

Lemma return_not_in_narrowed_span :
  ~ occurs "return" (nl ++ "def foo():" ++ nl ++ "    pass" ++ nl).
Proof.
  apply find_negative_iff. vm_compute. reflexivity.
Qed.

(** The amended C4 at work: [end-at] is missing from the text that
    [start-at] has narrowed. *)
Lemma extract_absent_anchor_is_severe_witness :
  extract (from_def_foo_to "return") scenario3
  = Raise (SystemMessage (not_found_message EndAt "return")).
Proof.
  apply (extract_absent_anchor_is_severe
           (from_def_foo_to "return") scenario3 EndAt "return"
           (nl ++ "def foo():" ++ nl ++ "    pass" ++ nl) 1).
  - discriminate.
  - reflexivity.
  - reflexivity.
  - exact return_not_in_narrowed_span.
Defined.

End ExtractFacts.

(** ** DocutilsInterface *)

Section JoinFacts.

(** A single token passes through [join] unchanged. *)
Lemma join_single_token (t : token) : join (of_list [t]) = of_list [t].
Proof. destruct t as [t0 v0]. reflexivity. Qed.

(** C5 does not hold of the code on the empty stream: there [join]
    yields nothing and ends with [RuntimeError], the form in which the
    [StopIteration] of its first [next(tokens)] reaches the consumer.
    The other half holds: a single token passes through unchanged. *)
Theorem join_empty_stream_raises :
  join (of_list []) = raising (RuntimeError "generator raised StopIteration")
  /\ forall t : token, join (of_list [t]) = of_list [t].
Proof. split; [reflexivity | exact join_single_token]. Qed.

Lemma ttype_is_refl (t : ttype) : ttype_is t t = true.
Proof. unfold ttype_is. destruct (ttype_eq_dec t t); congruence. Qed.

Lemma ttype_is_true (a b : ttype) : ttype_is a b = true -> a = b.
Proof. unfold ttype_is. destruct (ttype_eq_dec a b); [auto | discriminate]. Qed.

Lemma ttype_is_false (a b : ttype) : ttype_is a b = false -> a <> b.
Proof. unfold ttype_is. destruct (ttype_eq_dec a b); [discriminate | auto]. Qed.

Lemma ttype_is_neq (a b : ttype) : a <> b -> ttype_is a b = false.
Proof. unfold ttype_is. destruct (ttype_eq_dec a b); congruence. Qed.

(** On a list, the loop of [join] always ends normally. *)
Lemma join_loop_finishes (rest : list token) (lasttype : ttype) (lastval : string) :
  outcome (join_loop lasttype lastval rest None) = None.
Proof.
  revert lasttype lastval.
  induction rest as [|[ttype value] rest IH]; intros lasttype lastval; simpl.
  - reflexivity.
  - destruct (ttype_is ttype lasttype); simpl; apply IH.
Qed.

(** A non-empty list is merged without an exception. *)
Lemma join_nonempty_finishes (t : token) (ts : list token) :
  outcome (join (of_list (t :: ts))) = None.
Proof. destruct t as [ttype value]. simpl. apply join_loop_finishes. Qed.

(** The values yielded by the loop, concatenated, are the accumulator
    followed by the values still to come. *)
Lemma join_loop_values (rest : list token) (lasttype : ttype) (lastval : string) :
  concat_values (yielded (join_loop lasttype lastval rest None))
  = lastval ++ concat_values rest.
Proof.
  revert lasttype lastval.
  induction rest as [|[ttype value] rest IH]; intros lasttype lastval; simpl.
  - reflexivity.
  - destruct (ttype_is ttype lasttype); simpl.
    + rewrite IH. apply append_assoc.
    + rewrite IH. reflexivity.
Qed.

(** C7: merging neither drops, adds nor reorders characters: the values
    that [join] yields, concatenated in order, are the values of its
    input concatenated in order. *)
Theorem join_preserves_concatenation (ts : list token) :
  concat_values (yielded (join (of_list ts))) = concat_values ts.
Proof.
  destruct ts as [|[ttype value] rest]; simpl.
  - reflexivity.
  - apply join_loop_values.
Qed.

(** The loop yields a stream that starts with the held type and in which
    neighbours differ. *)
Lemma join_loop_alternating (rest : list token) (lasttype : ttype) (lastval : string) :
  exists v l,
    yielded (join_loop lasttype lastval rest None) = (lasttype, v) :: l
    /\ alternating lasttype l.
Proof.
  revert lasttype lastval.
  induction rest as [|[ttype value] rest IH]; intros lasttype lastval; simpl.
  - exists lastval, []. split; [reflexivity | exact I].
  - destruct (ttype_is ttype lasttype) eqn:E.
    + apply IH.
    + destruct (IH ttype value) as [v [l [Hy Ha]]].
      exists lastval, ((ttype, v) :: l). simpl.
      split; [f_equal; exact Hy|].
      split; [apply ttype_is_false; exact E | exact Ha].
Qed.

(** On such a stream the loop changes nothing. *)
Lemma join_loop_fixed (l : list token) (t : ttype) (v : string) :
  alternating t l -> join_loop t v l None = of_list ((t, v) :: l).
Proof.
  revert t v. induction l as [|[t' v'] l IH]; intros t v Ha; simpl.
  - reflexivity.
  - destruct Ha as [Hne Ha]. rewrite (ttype_is_neq _ _ Hne).
    rewrite (IH t' v' Ha). reflexivity.
Qed.

(** The merged stream as a whole. *)
Lemma join_loop_shape (rest : list token) (lasttype : ttype) (lastval : string) :
  exists v l,
    join_loop lasttype lastval rest None = of_list ((lasttype, v) :: l)
    /\ alternating lasttype l.
Proof.
  destruct (join_loop_alternating rest lasttype lastval) as [v [l [Hy Ha]]].
  pose proof (join_loop_finishes rest lasttype lastval) as Hfin.
  exists v, l. split; [|exact Ha].
  destruct (join_loop lasttype lastval rest None) as [ys fin].
  simpl in Hy, Hfin. subst ys fin. reflexivity.
Qed.

(** C6: [join] is idempotent on finite token sequences. *)
Theorem join_idempotent (ts : list token) :
  join (join (of_list ts)) = join (of_list ts).
Proof.
  destruct ts as [|[t0 v0] rest].
  - reflexivity.
  - change (join (of_list ((t0, v0) :: rest))) with (join_loop t0 v0 rest None).
    destruct (join_loop_shape rest t0 v0) as [v [l [Hg Ha]]].
    rewrite Hg. change (join (of_list ((t0, v) :: l))) with (join_loop t0 v l None).
    apply join_loop_fixed. exact Ha.
Qed.

End JoinFacts.

Section IterFacts.

Variables (code language : string) (custom_args : options).

(** C3 does not hold of the code: without pygments, [lex] stops at
    the unbound name [get_lexer_by_name]; [NameError] is neither the
    [ValueError] that [lex] handles nor the [IOError] that [__iter__]
    handles, so nothing is logged, no token is yielded and the exception
    reaches the caller. *)
Theorem iter_without_pygments_raises :
  iter None code language custom_args
  = {| logged := []; tokens := raising (NameError "get_lexer_by_name") |}.
Proof.
  unfold iter, lex.
  destruct (truthy language && negb (String.eqb (lower language) "none"));
    reflexivity.
Qed.

(** The fallback of [__iter__] is taken when [lex] ends with [IOError]:
    one informational record, one unstyled token holding the code. *)
Lemma iter_fallback_on_IOError (m : pygments_module) :
  (forall name args, get_lexer_by_name m name args = Raise IOError) ->
  iter (Some m) code language custom_args
  = {| logged := [(INFO, "Pygments lexer not found, using fallback")];
       tokens := of_list [("", code)] |}.
Proof.
  intros Hraise. unfold iter, lex. simpl.
  destruct (truthy language && negb (String.eqb (lower language) "none"));
    rewrite Hraise; reflexivity.
Qed.

End IterFacts.

(** ** Line annotation *)

Section AnnotateFacts.

Variables (withln : bool) (hl : list Z) (total : Z).

Lemma annotate_token_line (lineno : Z) (tok : string * string) :
  fst (annotate_token withln hl total lineno tok) = lineno + count_nl (snd tok).
Proof.
  destruct tok as [cls value]. unfold annotate_token. simpl snd.
  destruct (withln && contains_nl value).
  - simpl fst. rewrite split_nl_length. lia.
  - destruct (existsb _ unstyled_tokens); simpl fst;
      destruct (contains_nl value) eqn:E;
      try reflexivity; rewrite (count_nl_without _ E); lia.
Qed.

Lemma annotate_tokens_line (toks : list (string * string)) (lineno : Z) :
  fst (annotate_tokens withln hl total lineno toks) = lineno + line_breaks toks.
Proof.
  revert lineno. induction toks as [|tok rest IH]; intros lineno; simpl.
  - lia.
  - pose proof (annotate_token_line lineno tok) as Hstep.
    destruct (annotate_token withln hl total lineno tok) as [lineno' out].
    specialize (IH lineno').
    destruct (annotate_tokens withln hl total lineno' rest) as [final more].
    destruct tok as [cls value]. simpl in *. lia.
Qed.

(** C2: whatever branch each token takes, the loop leaves [lineno] at
    the starting line plus the number of line feeds in the values of
    the stream. *)
Theorem annotate_line_count (toks : list (string * string)) (s : Z) :
  fst (annotate withln hl total s toks) = s + line_breaks toks.
Proof.
  unfold annotate. pose proof (annotate_tokens_line toks s) as H.
  destruct (annotate_tokens withln hl total s toks) as [final out].
  exact H.
Qed.

Lemma numbered_piece_within (p : string * Z) :
  Forall (numbered_within total) (numbered_piece hl total p).
Proof.
  destruct p as [chunk ln]. unfold numbered_piece.
  destruct (ln <=? total) eqn:E; [|constructor].
  apply Z.leb_le in E.
  destruct (not_highlighted hl ln); repeat constructor; exact E.
Qed.

Lemma numbered_pieces_within (ps : list (string * Z)) :
  Forall (numbered_within total) (flat_map (numbered_piece hl total) ps).
Proof.
  induction ps as [|p ps IH]; simpl.
  - constructor.
  - apply Forall_app. split; [apply numbered_piece_within | exact IH].
Qed.

Lemma annotate_token_within (lineno : Z) (tok : string * string) :
  Forall (numbered_within total) (snd (annotate_token withln hl total lineno tok)).
Proof.
  destruct tok as [cls value]. unfold annotate_token.
  destruct (withln && contains_nl value).
  - simpl snd. constructor; [exact I | apply numbered_pieces_within].
  - destruct (existsb _ unstyled_tokens); simpl snd; repeat constructor.
Qed.

Lemma annotate_tokens_within (toks : list (string * string)) (lineno : Z) :
  Forall (numbered_within total) (snd (annotate_tokens withln hl total lineno toks)).
Proof.
  revert lineno. induction toks as [|tok rest IH]; intros lineno; simpl.
  - constructor.
  - pose proof (annotate_token_within lineno tok) as Hstep.
    destruct (annotate_token withln hl total lineno tok) as [lineno' out].
    specialize (IH lineno').
    destruct (annotate_tokens withln hl total lineno' rest) as [final more].
    simpl in *. apply Forall_app. split; assumption.
Qed.

(** From a starting line that does not exceed [total], no fragment
    carries a line number above [total]. *)
Lemma annotate_within (toks : list (string * string)) (lineno : Z) :
  lineno <= total ->
  Forall (numbered_within total) (snd (annotate withln hl total lineno toks)).
Proof.
  intros Hle. unfold annotate.
  pose proof (annotate_tokens_within toks lineno) as H.
  destruct (annotate_tokens withln hl total lineno toks) as [final out].
  simpl in *. apply Forall_app. split; [|exact H].
  destruct withln; repeat constructor. exact Hle.
Qed.

End AnnotateFacts.

(** In the split branch the first piece of a token that has a style
    class is appended with class [pygments-diml], highlighted line or
    not. *)
Lemma styled_first_piece_is_dimmed
  (hl : list Z) (total lineno : Z) (cls value : string) :
  cls <> "" -> contains_nl value = true ->
  exists rest,
    snd (annotate_token true hl total lineno (cls, value))
    = FirstPiece lineno (hd "" (split_nl value)) "pygments-diml" :: rest.
Proof.
  intros Hcls Hnl. unfold annotate_token. rewrite Hnl. simpl andb. cbv iota.
  eexists. simpl snd. f_equal. f_equal.
  destruct (not_highlighted hl lineno); [reflexivity|].
  destruct cls; [congruence | reflexivity].
Qed.

(** The trailing line feed of [three_lines] gives a fourth, empty
    piece; it is on line 4 of 3 and is left out. *)
Example annotate_three_lines :
  annotate true [] 3 1 three_lines
  = (4, [FirstLineNo 1 "linenumber"; FirstPiece 1 "line1" "";
         NumberedPiece 2 "linenumber" "line2" "";
         NumberedPiece 3 "linenumber" "line3" ""]).
Proof. reflexivity. Qed.

(** With [lineno] and [total_lines] as the directive computes them
    (lines 263-264), no line number above [total_lines] is emitted, be
    it the leading one or one in front of a later piece of a split
    token. *)
Lemma annotate_numbers_within_total
  (withln : bool) (hl : list Z) (content : string) (line_offset : Z)
  (toks : list (string * string)) :
  Forall (numbered_within (count_nl content + 1 + line_offset))
         (snd (annotate withln hl (count_nl content + 1 + line_offset)
                        (1 + line_offset) toks)).
Proof.
  apply annotate_within. pose proof (count_nl_nonneg content). lia.
Qed.

(** C8 does not hold of the code: lines are numbered, line 2 of 3
    is highlighted, and a styled token that opens on line 2 runs into
    line 3.  Its first piece is appended with class [pygments-diml]
    although [lineno] is 2, the highlighted line. *)
Theorem annotate_dims_first_piece_on_highlighted_line :
  mem 2 [2] = true
  /\ annotate true [2] 3 1 docstring_tokens
     = (4, [FirstLineNo 1 "pygments-diml";
            Styled 1 "a" "diml";
            FirstPiece 1 "" "pygments-diml";
            NumberedPiece 2 "linenumber" "" "";
            FirstPiece 2 "'''b" "pygments-diml";
            NumberedPiece 3 "pygments-diml" "c'''" "pygments-diml";
            FirstPiece 3 "" "pygments-diml"]).
Proof. split; reflexivity. Qed.

(** ** Numbering in the directive *)

Section DirectiveFacts.

Variable pygments : option pygments_module.
Variable read_file : string -> string -> result string.

Lemma render_ignores_line_offset
  (arguments : list string) (o : options) (text : string) (off off' : option Z) :
  linenos_offset o = None ->
  render pygments arguments o text off = render pygments arguments o text off'.
Proof.
  intros Habsent. unfold render, numbering_offset. rewrite Habsent. reflexivity.
Qed.

(** C10: without [linenos_offset] the line offset is reset to 0, so the
    offset that the anchors derived has no effect on what is rendered;
    and when the tab width is a number, the tokenizer runs to its end
    and [linenos] is given, the block returned by the directive starts
    with the line number 1. *)
Theorem absent_linenos_offset_numbers_from_one
  (arguments : list string) (o : options) (content : list string) (lineno : Z)
  (logged0 : list log_record) (text : string) (off : option Z) (tabw : Z) :
  linenos_offset o = None ->
  load_content read_file o content lineno = (logged0, Return (text, off)) ->
  tab_width_of o = Return tabw ->
  outcome (tokens (iter pygments (replace_tab text (spaces tabw))
                        (language_of arguments) o)) = None ->
  with_linenos o = true ->
  render pygments arguments o text off = render pygments arguments o text (Some 0)
  /\ exists logged1 block cls rest,
      code_block_directive pygments read_file arguments o content lineno
      = (logged1, Return [block])
      /\ children block
         = inline (format_d (len (str_of_int (count_nl (replace_tab text (spaces tabw)) + 1))) 1 ++ " ")
                  (format_d (len (str_of_int (count_nl (replace_tab text (spaces tabw)) + 1))) 1 ++ " ")
                  [cls] :: rest.
Proof.
  intros Habsent Hload Htab Hdone Hln.
  split; [apply render_ignores_line_offset; exact Habsent|].
  unfold code_block_directive. rewrite Hload.
  unfold render, numbering_offset. rewrite Htab, Habsent, Hdone, Hln.
  unfold annotate.
  destruct (annotate_tokens true (highlighted_lines o)
              (count_nl (replace_tab text (spaces tabw)) + 1 + 0) (1 + 0)
              (yielded (tokens (iter pygments (replace_tab text (spaces tabw))
                                     (language_of arguments) o))))
    as [final out].
  cbn [snd app flat_map to_nodes].
  rewrite Z.add_0_r.
  eexists _, _, _, _. split; reflexivity.
Qed.

End DirectiveFacts.

(** [def foo] is on the second line of [f.py]; the rendered block still
    counts from 1. *)
Lemma absent_linenos_offset_numbers_from_one_witness :
  render (Some text_only) [] numbered_from_def_foo
         (nl ++ "def foo():" ++ nl ++ "    pass") (Some 1)
  = render (Some text_only) [] numbered_from_def_foo
           (nl ++ "def foo():" ++ nl ++ "    pass") (Some 0)
  /\ exists logged1 block cls rest,
      code_block_directive (Some text_only) only_f_py [] numbered_from_def_foo [] 7
      = (logged1, Return [block])
      /\ children block = inline "1 " "1 " [cls] :: rest.
Proof.
  apply (absent_linenos_offset_numbers_from_one
           (Some text_only) only_f_py [] numbered_from_def_foo [] 7
           [] (nl ++ "def foo():" ++ nl ++ "    pass") (Some 1) 8);
    reflexivity.
Defined.

(** What the directive returns there. *)
Example directive_numbered_from_def_foo :
  code_block_directive (Some text_only) only_f_py [] numbered_from_def_foo [] 7
  = ([], Return [ {| classes := ["code"; "text"];
                     children :=
                       [inline "1 " "1 " ["linenumber"];
                        inline "" "" [""];
                        inline (nl ++ "2 ") (nl ++ "2 ") ["linenumber"];
                        inline "def foo():" "def foo():" [""];
                        inline (nl ++ "3 ") (nl ++ "3 ") ["linenumber"];
                        inline "    pass" "    pass" [""]] |} ]).
Proof. reflexivity. Qed.

(** * Further properties *)

(** ** Slices and first occurrences *)

Section SliceFacts.

Lemma length_append (a b : string) :
  String.length (a ++ b) = (String.length a + String.length b)%nat.
Proof. induction a as [|x a IH]; simpl; [reflexivity | rewrite IH; reflexivity]. Qed.

Lemma len_append (a b : string) : len (a ++ b) = len a + len b.
Proof. unfold len. rewrite length_append. lia. Qed.

Lemma len_nonneg (s : string) : 0 <= len s.
Proof. unfold len. lia. Qed.

Lemma append_empty_r (s : string) : s ++ "" = s.
Proof. induction s as [|x s IH]; simpl; [reflexivity | rewrite IH; reflexivity]. Qed.

Lemma substring_zero_zero (s : string) : substring 0 0 s = "".
Proof. destruct s; reflexivity. Qed.

(** A substring taken from the start is a prefix. *)
Lemma substring_is_prefix (m : nat) (s : string) :
  exists post, s = substring 0 m s ++ post.
Proof.
  revert m. induction s as [|c s IH]; intros m.
  - exists "". destruct m; reflexivity.
  - destruct m as [|m]; simpl.
    + exists (String c s). reflexivity.
    + destruct (IH m) as [post E]. exists post. rewrite <- E. reflexivity.
Qed.

(** Any substring occurs in the string. *)
Lemma substring_occurs (n m : nat) (s : string) : occurs (substring n m s) s.
Proof.
  revert n m. induction s as [|c s IH]; intros n m.
  - exists "", "". destruct n, m; reflexivity.
  - destruct n as [|n].
    + destruct (substring_is_prefix m (String c s)) as [post E].
      exists "", post. exact E.
    + simpl. destruct (IH n m) as [pre [post E]].
      exists (String c pre), post. simpl. rewrite <- E. reflexivity.
Qed.

(** A slice occurs in the string it is taken from. *)
Lemma slice_occurs (s : string) (lo hi : option Z) : occurs (slice s lo hi) s.
Proof. unfold slice. apply substring_occurs. Qed.

Lemma occurs_trans (a b c : string) : occurs a b -> occurs b c -> occurs a c.
Proof.
  intros [p1 [q1 E1]] [p2 [q2 E2]]. exists (p2 ++ p1), (q1 ++ q2).
  rewrite E2, E1. rewrite !append_assoc. reflexivity.
Qed.

Lemma occurs_refl (s : string) : occurs s s.
Proof. exists "", "". simpl. rewrite append_empty_r. reflexivity. Qed.

Lemma substring_prefix_exact (a b : string) :
  substring 0 (String.length a) (a ++ b) = a.
Proof.
  induction a as [|x a IH]; simpl.
  - apply substring_zero_zero.
  - rewrite IH. reflexivity.
Qed.

Lemma substring_whole (s : string) (m : nat) :
  (String.length s <= m)%nat -> substring 0 m s = s.
Proof.
  revert m. induction s as [|c s IH]; intros m Hm.
  - destruct m; reflexivity.
  - destruct m as [|m]; simpl in *; [lia|]. rewrite IH by lia. reflexivity.
Qed.

Lemma substring_skip (a b : string) (m : nat) :
  substring (String.length a) m (a ++ b) = substring 0 m b.
Proof. induction a as [|x a IH]; simpl; [reflexivity | exact IH]. Qed.

(** [(a + b)[:len(a)] == a]. *)
Lemma slice_to_append (a b : string) : slice (a ++ b) None (Some (len a)) = a.
Proof.
  unfold slice, clamp. pose proof (len_nonneg a). pose proof (len_nonneg b).
  rewrite len_append.
  replace (len a <? 0) with false by (symmetry; apply Z.ltb_ge; lia).
  rewrite Z.min_l by lia. rewrite Z.sub_0_r.
  unfold len. rewrite Nat2Z.id. apply substring_prefix_exact.
Qed.

(** [(a + b)[len(a):] == b]. *)
Lemma slice_from_append (a b : string) : slice (a ++ b) (Some (len a)) None = b.
Proof.
  unfold slice, clamp. pose proof (len_nonneg a). pose proof (len_nonneg b).
  rewrite len_append.
  replace (len a <? 0) with false by (symmetry; apply Z.ltb_ge; lia).
  rewrite Z.min_l by lia.
  replace (len a + len b - len a) with (len b) by lia.
  unfold len. rewrite !Nat2Z.id. rewrite substring_skip.
  apply substring_whole. lia.
Qed.

(** What [find] returns when it finds: the length of the shortest
    prefix after which [sub] stands. *)
Lemma find_from_first (s sub : string) (k i : Z) :
  find_from s sub k = i -> 0 <= k -> 0 <= i ->
  exists pre post,
    s = pre ++ sub ++ post /\ len pre = i - k
    /\ forall pre' post', s = pre' ++ sub ++ post' -> len pre <= len pre'.
Proof.
  revert k. induction s as [|c s IH]; intros k Hf Hk Hi.
  - destruct sub as [|a sub]; simpl in Hf.
    + exists "", "". split; [reflexivity|]. split; [unfold len; simpl; lia|].
      intros pre' post' _. apply len_nonneg.
    + lia.
  - rewrite find_from_cons in Hf.
    destruct (startswith (String c s) sub) eqn:E.
    + apply startswith_inv in E. destruct E as [post E].
      exists "", post. split; [exact E|]. split; [unfold len; simpl; lia|].
      intros pre' post' _. apply len_nonneg.
    + destruct (IH (k + 1) Hf ltac:(lia) Hi) as [pre [post [Es [Hl Hmin]]]].
      exists (String c pre), post. split; [simpl; rewrite <- Es; reflexivity|].
      split.
      * unfold len in *. simpl String.length. lia.
      * intros pre' post' E'. destruct pre' as [|c' pre'].
        -- simpl in E'. rewrite E' in E. rewrite startswith_append in E.
           discriminate.
        -- simpl in E'. inversion E' as [[Hc Hs]].
           specialize (Hmin pre' post' Hs).
           unfold len in *. simpl String.length. lia.
Qed.

Lemma find_first (s sub : string) :
  occurs sub s ->
  exists pre post,
    s = pre ++ sub ++ post /\ len pre = find s sub
    /\ forall pre' post', s = pre' ++ sub ++ post' -> len pre <= len pre'.
Proof.
  intros Hocc.
  pose proof (find_from_found s sub 0 ltac:(lia) Hocc) as Hi.
  destruct (find_from_first s sub 0 (find s sub) eq_refl ltac:(lia) Hi)
    as [pre [post [E [Hl Hmin]]]].
  exists pre, post. split; [exact E|]. split; [lia | exact Hmin].
Qed.

End SliceFacts.

(** ** The end anchors and the shape of the span *)

Section EndAnchorFacts.

Variable o : options.

Lemma nonempty_truthy (s : string) : s <> "" -> truthy s = true.
Proof. destruct s; [congruence | reflexivity]. Qed.

Lemma found_not_negative (content text : string) :
  occurs text content -> (find content text <? 0) = false.
Proof.
  intros Hocc. apply Z.ltb_ge. apply (find_from_found content text 0); [lia | exact Hocc].
Qed.

(** X2: [end-at] keeps the text up to and including the first
    occurrence of its anchor, and leaves [line_offset] alone. *)
Theorem end_at_keeps_through_first_match
  (content text : string) (line_offset : Z) :
  end_at o = Some text -> text <> "" -> occurs text content ->
  exists pre post,
    content = pre ++ text ++ post
    /\ (forall pre' post', content = pre' ++ text ++ post' -> len pre <= len pre')
    /\ apply_end_at o (content, line_offset) = Return (pre ++ text, line_offset).
Proof.
  intros Hopt Hne Hocc.
  destruct (find_first content text Hocc) as [pre [post [E [Hl Hmin]]]].
  exists pre, post. split; [exact E|]. split; [exact Hmin|].
  unfold apply_end_at. rewrite Hopt, (nonempty_truthy _ Hne).
  rewrite (found_not_negative _ _ Hocc).
  rewrite <- Hl, <- len_append. rewrite E at 1.
  rewrite <- append_assoc. rewrite slice_to_append. reflexivity.
Qed.

(** X3: [end-before] keeps the text strictly before the first
    occurrence of its anchor, and leaves [line_offset] alone. *)
Theorem end_before_keeps_up_to_first_match
  (content text : string) (line_offset : Z) :
  end_before o = Some text -> text <> "" -> occurs text content ->
  exists pre post,
    content = pre ++ text ++ post
    /\ (forall pre' post', content = pre' ++ text ++ post' -> len pre <= len pre')
    /\ apply_end_before o (content, line_offset) = Return (pre, line_offset).
Proof.
  intros Hopt Hne Hocc.
  destruct (find_first content text Hocc) as [pre [post [E [Hl Hmin]]]].
  exists pre, post. split; [exact E|]. split; [exact Hmin|].
  unfold apply_end_before. rewrite Hopt, (nonempty_truthy _ Hne).
  rewrite (found_not_negative _ _ Hocc).
  rewrite <- Hl. rewrite E at 1. rewrite slice_to_append. reflexivity.
Qed.

Lemma apply_start_at_occurs (content span : string) (off off' : Z) :
  apply_start_at o (content, off) = Return (span, off') -> occurs span content.
Proof.
  unfold apply_start_at. intros H.
  destruct (start_at o) as [text|];
    [|inversion H; apply occurs_refl].
  destruct (truthy text); [|inversion H; apply occurs_refl].
  destruct (find content text <? 0); [discriminate|].
  inversion H. apply slice_occurs.
Qed.

Lemma apply_start_after_occurs (content span : string) (off off' : Z) :
  apply_start_after o (content, off) = Return (span, off') -> occurs span content.
Proof.
  unfold apply_start_after. intros H.
  destruct (start_after o) as [text|];
    [|inversion H; apply occurs_refl].
  destruct (truthy text); [|inversion H; apply occurs_refl].
  destruct (find content text <? 0); [discriminate|].
  inversion H. apply slice_occurs.
Qed.

Lemma apply_end_at_occurs (content span : string) (off off' : Z) :
  apply_end_at o (content, off) = Return (span, off') -> occurs span content.
Proof.
  unfold apply_end_at. intros H.
  destruct (end_at o) as [text|];
    [|inversion H; apply occurs_refl].
  destruct (truthy text); [|inversion H; apply occurs_refl].
  destruct (find content text <? 0); [discriminate|].
  inversion H. apply slice_occurs.
Qed.

Lemma apply_end_before_occurs (content span : string) (off off' : Z) :
  apply_end_before o (content, off) = Return (span, off') -> occurs span content.
Proof.
  unfold apply_end_before. intros H.
  destruct (end_before o) as [text|];
    [|inversion H; apply occurs_refl].
  destruct (truthy text); [|inversion H; apply occurs_refl].
  destruct (find content text <? 0); [discriminate|].
  inversion H. apply slice_occurs.
Qed.

(** X4: extraction only cuts: whatever anchors are given, a span that
    [extract] returns is a contiguous part of the content. *)
Theorem extract_returns_part_of_content (content span : string) (off : Z) :
  extract o content = Return (span, off) -> occurs span content.
Proof.
  unfold extract. destruct (truthy content).
  - cbv zeta. intros H.
    destruct (apply_start_at o (content, 0)) as [[c1 o1]|e] eqn:E1;
      cbn [bind] in H; [|discriminate].
    destruct (apply_start_after o (c1, o1)) as [[c2 o2]|e] eqn:E2;
      cbn [bind] in H; [|discriminate].
    destruct (apply_end_at o (c2, o2)) as [[c3 o3]|e] eqn:E3;
      cbn [bind] in H; [|discriminate].
    apply apply_end_before_occurs in H. apply apply_end_at_occurs in E3.
    apply apply_start_after_occurs in E2. apply apply_start_at_occurs in E1.
    eapply occurs_trans; [exact H|].
    eapply occurs_trans; [exact E3|].
    eapply occurs_trans; [exact E2 | exact E1].
  - intros H. inversion H. apply occurs_refl.
Qed.

(** X1: when none of the four anchors is given, [extract] returns the
    content as it is, with [line_offset] 0. *)
Theorem extract_without_anchors (content : string) :
  start_at o = None -> start_after o = None ->
  end_at o = None -> end_before o = None ->
  extract o content = Return (content, 0).
Proof.
  intros H1 H2 H3 H4. unfold extract.
  destruct (truthy content); [|reflexivity].
  unfold apply_start_at, apply_start_after, apply_end_at, apply_end_before.
  cbv zeta. rewrite H1. cbn [bind]. rewrite H2. cbn [bind].
  rewrite H3. cbn [bind]. rewrite H4. reflexivity.
Qed.

End EndAnchorFacts.

(** ** The start anchors *)

Section StartAnchorFacts.

Variable o : options.

(** The forward loop stops at the first line feed, or at the end. *)
Lemma forward_to_line_break_split (post : string) (j : Z) :
  exists tail span,
    post = tail ++ span
    /\ contains_nl tail = false
    /\ (span = "" \/ exists rest, span = String LF rest)
    /\ forward_to_line_break post j = j + len tail.
Proof.
  revert j. induction post as [|c post IH]; intros j.
  - exists "", "". repeat split; [left; reflexivity | unfold len; simpl; lia].
  - simpl. destruct (Ascii.eqb c LF) eqn:E.
    + apply Ascii.eqb_eq in E. subst c.
      exists "", (String LF post). repeat split.
      * right. exists post. reflexivity.
      * unfold len; simpl; lia.
    + destruct (IH (j + 1)) as [tail [span [Ep [Hn [Hs Hf]]]]].
      exists (String c tail), span. split; [simpl; rewrite <- Ep; reflexivity|].
      split; [simpl; rewrite E; exact Hn|]. split; [exact Hs|].
      rewrite Hf. unfold len. simpl String.length. lia.
Qed.

(** X5: [start-after] drops the text through the first occurrence of
    its anchor and the rest of that line; the span that is left is empty
    or begins with the line feed that ends the line, and [line_offset]
    is the number of lines of the part dropped. *)
Theorem start_after_resumes_at_line_feed
  (content text : string) (line_offset : Z) :
  start_after o = Some text -> text <> "" -> occurs text content ->
  exists pre tail span,
    content = pre ++ text ++ tail ++ span
    /\ (forall pre' post', content = pre' ++ text ++ post' -> len pre <= len pre')
    /\ contains_nl tail = false
    /\ (span = "" \/ exists rest, span = String LF rest)
    /\ apply_start_after o (content, line_offset)
       = Return (span, Z.of_nat (List.length (splitlines (pre ++ text ++ tail)))).
Proof.
  intros Hopt Hne Hocc.
  destruct (find_first content text Hocc) as [pre [post [E [Hl Hmin]]]].
  destruct (forward_to_line_break_split post (len (pre ++ text)))
    as [tail [span [Ep [Hn [Hs Hf]]]]].
  exists pre, tail, span.
  split; [rewrite E, Ep; reflexivity|].
  split; [exact Hmin|]. split; [exact Hn|]. split; [exact Hs|].
  unfold apply_start_after. rewrite Hopt, (nonempty_truthy _ Hne).
  rewrite (found_not_negative _ _ Hocc). cbv zeta.
  rewrite <- Hl, <- len_append.
  assert (E1 : content = (pre ++ text) ++ post)
    by (rewrite E; symmetry; apply append_assoc).
  assert (S1 : slice content (Some (len (pre ++ text))) None = post)
    by (rewrite E1; apply slice_from_append).
  rewrite S1, Hf, <- len_append.
  assert (E2 : content = ((pre ++ text) ++ tail) ++ span).
  { rewrite E1, Ep. symmetry. apply append_assoc. }
  assert (S2 : slice content None (Some (len ((pre ++ text) ++ tail)))
               = (pre ++ text) ++ tail)
    by (rewrite E2; apply slice_to_append).
  assert (S3 : slice content (Some (len ((pre ++ text) ++ tail))) None = span)
    by (rewrite E2; apply slice_from_append).
  rewrite S2, S3. rewrite (append_assoc pre text tail). reflexivity.
Qed.

Lemma list_of_append (a b : string) :
  list_ascii_of_string (a ++ b)
  = (list_ascii_of_string a ++ list_ascii_of_string b)%list.
Proof. induction a as [|x a IH]; simpl; [reflexivity | rewrite IH; reflexivity]. Qed.

Lemma string_of_app (a b : list ascii) :
  string_of_list_ascii (a ++ b)%list
  = string_of_list_ascii a ++ string_of_list_ascii b.
Proof. induction a as [|x a IH]; simpl; [reflexivity | rewrite IH; reflexivity]. Qed.

Lemma length_list_of (s : string) :
  List.length (list_ascii_of_string s) = String.length s.
Proof. induction s as [|c s IH]; simpl; [reflexivity | rewrite IH; reflexivity]. Qed.

Lemma substring_as_list (s : string) (n m : nat) :
  list_ascii_of_string (substring n m s)
  = firstn m (skipn n (list_ascii_of_string s)).
Proof.
  revert n m. induction s as [|c s IH]; intros n m.
  - destruct n, m; reflexivity.
  - destruct n as [|n].
    + destruct m as [|m]; simpl; [reflexivity|].
      rewrite (IH 0%nat m). reflexivity.
    + simpl. apply IH.
Qed.

(** The backward loop, run over a list from its end: it stops on a line
    break, or runs through. *)
Lemma back_to_line_break_stops (X : list ascii) :
  let k := back_to_line_break (rev X) (Z.of_nat (List.length X)) in
  0 <= k <= Z.of_nat (List.length X)
  /\ (k = 0 \/
      1 <= k /\ exists b, nth_error X (Z.to_nat k - 1) = Some b /\ (b = LF \/ b = CR)).
Proof.
  induction X as [|x X IH] using rev_ind.
  - simpl. split; [lia | left; reflexivity].
  - rewrite rev_app_distr. simpl rev. simpl app.
    rewrite length_app. simpl List.length.
    cbv zeta. simpl back_to_line_break.
    destruct (Ascii.eqb x LF || Ascii.eqb x CR) eqn:E.
    + split; [lia|]. right. split; [lia|]. exists x. split.
      * replace (Z.to_nat (Z.of_nat (List.length X + 1)) - 1)%nat
          with (List.length X + 0)%nat by lia.
        rewrite nth_error_app2 by lia.
        replace (List.length X + 0 - List.length X)%nat with 0%nat by lia.
        reflexivity.
      * apply orb_true_iff in E. destruct E as [E|E];
          apply Ascii.eqb_eq in E; auto.
    + replace (Z.of_nat (List.length X + 1) - 1) with (Z.of_nat (List.length X)) by lia.
      cbv zeta in IH. destruct IH as [Hr Hk]. split; [lia|].
      destruct Hk as [Hk|[Hpos [b [Hb Hbr]]]]; [left; exact Hk|].
      right. split; [exact Hpos|]. exists b. split; [|exact Hbr].
      rewrite nth_error_app1; [exact Hb|].
      apply nth_error_Some. rewrite Hb. discriminate.
Qed.

End StartAnchorFacts.

Section StartAtShape.

Variable o : options.

Lemma slice_rev_to_start (s : string) (i : nat) :
  (i < String.length s)%nat ->
  slice_rev s (Z.of_nat i) 0 = rev (firstn i (skipn 1 (list_ascii_of_string s))).
Proof.
  intros Hi. unfold slice_rev, len.
  replace (Z.of_nat i <? 0) with false by (symmetry; apply Z.ltb_ge; lia).
  rewrite Z.min_l by lia. rewrite Z.min_l by lia.
  replace (Z.to_nat (0 + 1)) with 1%nat by lia.
  replace (Z.to_nat (Z.of_nat i - 0)) with i by lia.
  rewrite substring_as_list. reflexivity.
Qed.

Lemma slice_from_as_list (s : string) (k : nat) :
  (k <= String.length s)%nat ->
  slice s (Some (Z.of_nat k)) None
  = string_of_list_ascii (skipn k (list_ascii_of_string s)).
Proof.
  intros Hk. unfold slice, clamp, len.
  replace (Z.of_nat k <? 0) with false by (symmetry; apply Z.ltb_ge; lia).
  rewrite Z.min_l by lia. rewrite Nat2Z.id.
  rewrite <- (string_of_list_ascii_of_string (substring _ _ s)).
  rewrite substring_as_list. rewrite firstn_all2; [reflexivity|].
  rewrite length_skipn, length_list_of. lia.
Qed.

Lemma skipn_at_index (A : Type) (l : list A) (n : nat) (b : A) :
  nth_error l n = Some b -> skipn n l = b :: skipn (S n) l.
Proof.
  revert n. induction l as [|x l IH]; intros n Hb.
  - destruct n; discriminate.
  - destruct n as [|n]; simpl in *.
    + inversion Hb. reflexivity.
    + apply IH. exact Hb.
Qed.

(** X6: [start-at] cuts in front of the first occurrence of its anchor:
    the span holds the anchor, and it is either the whole content or it
    begins with a line break (LF or CR), the one that the backward loop
    stopped on. *)
Theorem start_at_span_keeps_line_break
  (content text : string) (line_offset : Z) :
  start_at o = Some text -> text <> "" -> occurs text content ->
  exists pre span,
    content = pre ++ span
    /\ occurs text span
    /\ (pre = "" \/ exists b rest, span = String b rest /\ (b = LF \/ b = CR))
    /\ apply_start_at o (content, line_offset)
       = Return (span,
                 Z.of_nat (List.length
                             (splitlines (slice span None (Some (len pre))))) - 1).
Proof.
  intros Hopt Hne Hocc.
  destruct (find_first content text Hocc) as [pre0 [post [E [Hl Hmin]]]].
  destruct text as [|t0 text']; [congruence|].
  set (L := list_ascii_of_string content).
  set (i := String.length pre0).
  assert (Hlen : (i < String.length content)%nat).
  { rewrite E, length_append. simpl. unfold i. lia. }
  set (X := firstn i (skipn 1 L)).
  assert (HX : List.length X = i).
  { unfold X. rewrite length_firstn, length_skipn. unfold L.
    rewrite length_list_of. lia. }
  pose proof (back_to_line_break_stops X) as Hstop. cbv zeta in Hstop.
  rewrite HX in Hstop.
  set (k := back_to_line_break (rev X) (Z.of_nat i)) in *.
  destruct Hstop as [Hk Hbreak].
  set (kn := Z.to_nat k).
  assert (Hkn : k = Z.of_nat kn) by (unfold kn; lia).
  assert (Hpre : String.length (string_of_list_ascii (firstn kn L)) = kn).
  { rewrite <- length_list_of, list_ascii_of_string_of_list_ascii.
    rewrite length_firstn. unfold L. rewrite length_list_of. lia. }
  exists (string_of_list_ascii (firstn kn L)), (string_of_list_ascii (skipn kn L)).
  split.
  { rewrite <- string_of_app, firstn_skipn. unfold L.
    symmetry. apply string_of_list_ascii_of_string. }
  split.
  { exists (string_of_list_ascii (skipn kn (list_ascii_of_string pre0))), post.
    unfold L. rewrite E at 1. rewrite list_of_append, skipn_app.
    rewrite length_list_of.
    replace (kn - String.length pre0)%nat with 0%nat by (fold i; lia).
    rewrite skipn_O, string_of_app, string_of_list_ascii_of_string.
    reflexivity. }
  split.
  { destruct Hbreak as [Hz|[Hpos [b [Hb Hbr]]]].
    - left. replace kn with 0%nat by lia. reflexivity.
    - right. exists b, (string_of_list_ascii (skipn (S kn) L)).
      split; [|exact Hbr].
      unfold X in Hb. fold kn in Hb.
      assert (Hlt : (kn - 1 < i)%nat).
      { destruct (Nat.lt_ge_cases (kn - 1) i) as [Hc|Hc]; [exact Hc|].
        exfalso. assert (Hnone : nth_error (firstn i (skipn 1 L)) (kn - 1) = None).
        { apply nth_error_None. rewrite length_firstn. lia. }
        rewrite Hnone in Hb. discriminate. }
      rewrite nth_error_firstn in Hb.
      replace (kn - 1 <? i)%nat with true in Hb
        by (symmetry; apply Nat.ltb_lt; exact Hlt).
      rewrite nth_error_skipn in Hb.
      replace (1 + (kn - 1))%nat with kn in Hb by lia.
      rewrite (skipn_at_index _ _ _ _ Hb). reflexivity. }
  unfold apply_start_at. rewrite Hopt. simpl truthy. cbv iota.
  rewrite (found_not_negative _ _ Hocc). cbv zeta.
  rewrite <- Hl.
  assert (Hrev : slice_rev content (len pre0) 0 = rev X)
    by (apply (slice_rev_to_start content i Hlen)).
  rewrite !Hrev.
  change (back_to_line_break (rev X) (len pre0)) with k.
  assert (Hcut : slice content (Some k) None = string_of_list_ascii (skipn kn L)).
  { rewrite Hkn. apply slice_from_as_list. lia. }
  rewrite !Hcut. unfold len. rewrite Hpre, <- Hkn. reflexivity.
Qed.

End StartAtShape.

(** ** More on line annotation *)

Section RangeFacts.

Lemma range_nil (lo hi : Z) : hi <= lo -> range lo hi = [].
Proof.
  intros H. unfold range. replace (Z.to_nat (hi - lo)) with 0%nat by lia.
  reflexivity.
Qed.

Lemma range_cons (lo hi : Z) : lo < hi -> range lo hi = lo :: range (lo + 1) hi.
Proof.
  intros H. unfold range.
  replace (Z.to_nat (hi - lo)) with (S (Z.to_nat (hi - (lo + 1)))) by lia.
  simpl seq. simpl map. f_equal; [lia|].
  rewrite <- seq_shift, map_map. apply map_ext. intros i. lia.
Qed.

Lemma range_app (a b c : Z) :
  a <= b -> b <= c -> (range a b ++ range b c)%list = range a c.
Proof.
  intros Hab Hbc.
  remember (Z.to_nat (b - a)) as n eqn:Hn. revert a Hab Hn.
  induction n as [|n IH]; intros a Hab Hn.
  - assert (a = b) by lia. subst a. rewrite (range_nil b b) by lia. reflexivity.
  - rewrite (range_cons a b) by lia. rewrite (range_cons a c) by lia.
    simpl. f_equal. apply IH; lia.
Qed.

(** Consecutive stretches of numbers, each cut at [t], join up. *)
Lemma range_capped_app (l l' f t : Z) :
  l <= l' -> l' <= f ->
  (range (l + 1) (Z.min l' t + 1) ++ range (l' + 1) (Z.min f t + 1))%list
  = range (l + 1) (Z.min f t + 1).
Proof.
  intros H1 H2. destruct (Z_le_gt_dec l' t) as [Hle|Hgt].
  - rewrite (Z.min_l l' t) by lia. apply range_app; lia.
  - rewrite (range_nil (l' + 1)) by lia. rewrite app_nil_r.
    rewrite (Z.min_r l' t) by lia. rewrite (Z.min_r f t) by lia. reflexivity.
Qed.

End RangeFacts.

Section SplitFacts.

(** Joining the pieces of [split("\n")] with line feeds restores the
    string. *)
Lemma split_nl_rejoin (s : string) :
  hd "" (split_nl s)
  ++ fold_right (fun chunk acc => nl ++ chunk ++ acc) "" (tl (split_nl s))
  = s.
Proof.
  induction s as [|c s IH]; simpl; [reflexivity|].
  destruct (Ascii.eqb c LF) eqn:E.
  - apply Ascii.eqb_eq in E. subst c. simpl.
    pose proof (split_nl_nonempty s) as Hne.
    destruct (split_nl s) as [|h t]; [congruence|].
    simpl in *. rewrite IH. reflexivity.
  - pose proof (split_nl_nonempty s) as Hne.
    destruct (split_nl s) as [|h t]; [congruence|].
    simpl in *. rewrite IH. reflexivity.
Qed.

End SplitFacts.

Section NumberingFacts.

Variables (hl : list Z) (total : Z).

(** The later pieces of a split token, numbered from [a]: what they
    show when none is past [total]. *)
Lemma numbered_pieces_text (chunks : list string) (a : Z) :
  a + Z.of_nat (List.length chunks) - 1 <= total ->
  fragments_text
    (flat_map (numbered_piece hl total)
              (combine chunks (range a (a + Z.of_nat (List.length chunks)))))
  = fold_right (fun chunk acc => nl ++ chunk ++ acc) "" chunks.
Proof.
  revert a. induction chunks as [|c chunks IH]; intros a Hle.
  - reflexivity.
  - simpl List.length in *. rewrite range_cons by lia.
    cbn [combine flat_map numbered_piece].
    replace (a <=? total) with true by (symmetry; apply Z.leb_le; lia).
    replace (a + Z.of_nat (S (List.length chunks)))
      with (a + 1 + Z.of_nat (List.length chunks)) by lia.
    destruct (not_highlighted hl a); cbn [app fragments_text fragment_text];
      rewrite IH by lia; simpl; reflexivity.
Qed.

(** The numbers in front of those pieces. *)
Lemma numbered_pieces_numbers (chunks : list string) (a : Z) :
  line_numbers
    (flat_map (numbered_piece hl total)
              (combine chunks (range a (a + Z.of_nat (List.length chunks)))))
  = range a (Z.min (a + Z.of_nat (List.length chunks) - 1) total + 1).
Proof.
  revert a. induction chunks as [|c chunks IH]; intros a.
  - cbn [combine flat_map line_numbers List.length].
    symmetry. apply range_nil. lia.
  - simpl List.length. rewrite range_cons by lia.
    cbn [combine flat_map numbered_piece].
    replace (a + Z.of_nat (S (List.length chunks)))
      with (a + 1 + Z.of_nat (List.length chunks)) by lia.
    destruct (a <=? total) eqn:E.
    + apply Z.leb_le in E.
      rewrite (range_cons a) by lia.
      destruct (not_highlighted hl a); cbn [app line_numbers];
        rewrite IH; do 2 f_equal; lia.
    + apply Z.leb_gt in E. cbn [app]. rewrite IH.
      rewrite range_nil by lia. rewrite range_nil by lia. reflexivity.
Qed.

End NumberingFacts.

Section AnnotateMore.

Variables (withln : bool) (hl : list Z) (total : Z).

Lemma later_pieces_shift (h : string) (t : list string) (lineno : Z) :
  tl (combine (h :: t) (range lineno (lineno + Z.of_nat (List.length (h :: t)))))
  = combine t (range (lineno + 1) (lineno + 1 + Z.of_nat (List.length t))).
Proof.
  simpl List.length. rewrite range_cons by lia. simpl. do 2 f_equal. lia.
Qed.

Lemma annotate_token_text (lineno : Z) (cls value : string) :
  lineno + count_nl value <= total ->
  fragments_text (snd (annotate_token withln hl total lineno (cls, value))) = value.
Proof.
  intros Hle. unfold annotate_token.
  destruct (withln && contains_nl value).
  - cbn [snd fragments_text fragment_text].
    pose proof (split_nl_length value) as Hlen.
    pose proof (split_nl_rejoin value) as Hjoin.
    destruct (split_nl value) as [|h t] eqn:Es;
      [exfalso; exact (split_nl_nonempty value Es)|].
    rewrite later_pieces_shift. rewrite numbered_pieces_text.
    + exact Hjoin.
    + simpl List.length in Hlen. lia.
  - destruct (existsb _ unstyled_tokens); simpl; apply append_empty_r.
Qed.

Lemma annotate_token_numbers (lineno : Z) (tok : string * string) :
  line_numbers (snd (annotate_token withln hl total lineno tok))
  = if withln
    then range (lineno + 1) (Z.min (lineno + count_nl (snd tok)) total + 1)
    else [].
Proof.
  destruct tok as [cls value]. unfold annotate_token. cbn [snd].
  destruct withln; cbn [andb].
  - destruct (contains_nl value) eqn:Enl.
    + cbn [snd line_numbers].
      pose proof (split_nl_length value) as Hlen.
      destruct (split_nl value) as [|h t] eqn:Es;
      [exfalso; exact (split_nl_nonempty value Es)|].
      rewrite later_pieces_shift, numbered_pieces_numbers.
      simpl List.length in Hlen. do 2 f_equal. lia.
    + rewrite (count_nl_without _ Enl).
      rewrite range_nil by lia.
      destruct (existsb _ unstyled_tokens); reflexivity.
  - destruct (existsb _ unstyled_tokens); reflexivity.
Qed.

Lemma fragments_text_app (a b : list fragment) :
  fragments_text (a ++ b)%list = fragments_text a ++ fragments_text b.
Proof.
  induction a as [|f a IH]; simpl; [reflexivity|].
  rewrite IH. symmetry. apply append_assoc.
Qed.

Lemma line_numbers_app (a b : list fragment) :
  line_numbers (a ++ b)%list = (line_numbers a ++ line_numbers b)%list.
Proof.
  induction a as [|f a IH]; simpl; [reflexivity|].
  destruct f; simpl; rewrite IH; reflexivity.
Qed.

Lemma line_breaks_nonneg (toks : list (string * string)) : 0 <= line_breaks toks.
Proof.
  induction toks as [|[cls value] rest IH]; simpl; [lia|].
  pose proof (count_nl_nonneg value). lia.
Qed.

Lemma annotate_tokens_text (toks : list (string * string)) (lineno : Z) :
  lineno + line_breaks toks <= total ->
  fragments_text (snd (annotate_tokens withln hl total lineno toks))
  = values_text toks.
Proof.
  revert lineno. induction toks as [|[cls value] rest IH]; intros lineno Hle.
  - reflexivity.
  - simpl in Hle. pose proof (line_breaks_nonneg rest).
    pose proof (count_nl_nonneg value).
    cbn [annotate_tokens values_text].
    pose proof (annotate_token_line withln hl total lineno (cls, value)) as Hl.
    pose proof (annotate_token_text lineno cls value ltac:(lia)) as Ht.
    destruct (annotate_token withln hl total lineno (cls, value)) as [lineno' out].
    cbn [fst snd] in Hl, Ht.
    specialize (IH lineno' ltac:(lia)).
    destruct (annotate_tokens withln hl total lineno' rest) as [final more].
    cbn [snd] in *. rewrite fragments_text_app, Ht, IH. reflexivity.
Qed.

(** X8: when the token stream has no more line feeds than fit below
    [total_lines], the text of the emitted fragments, each numbered
    piece on a line of its own, is the text of the tokens: splitting
    for line numbers loses nothing. *)
Theorem annotate_keeps_text (toks : list (string * string)) (lineno : Z) :
  lineno + line_breaks toks <= total ->
  fragments_text (snd (annotate withln hl total lineno toks)) = values_text toks.
Proof.
  intros Hle. unfold annotate.
  pose proof (annotate_tokens_text toks lineno Hle) as H.
  destruct (annotate_tokens withln hl total lineno toks) as [final out].
  cbn [snd] in *. rewrite fragments_text_app, H.
  destruct withln; reflexivity.
Qed.

Lemma annotate_tokens_numbers (toks : list (string * string)) (lineno : Z) :
  line_numbers (snd (annotate_tokens withln hl total lineno toks))
  = if withln
    then range (lineno + 1) (Z.min (lineno + line_breaks toks) total + 1)
    else [].
Proof.
  revert lineno. induction toks as [|[cls value] rest IH]; intros lineno.
  - simpl. rewrite range_nil by lia. destruct withln; reflexivity.
  - cbn [annotate_tokens line_breaks].
    pose proof (line_breaks_nonneg rest). pose proof (count_nl_nonneg value).
    pose proof (annotate_token_line withln hl total lineno (cls, value)) as Hl.
    pose proof (annotate_token_numbers lineno (cls, value)) as Hn.
    destruct (annotate_token withln hl total lineno (cls, value)) as [lineno' out].
    cbn [fst snd] in Hl, Hn.
    specialize (IH lineno').
    destruct (annotate_tokens withln hl total lineno' rest) as [final more].
    cbn [snd] in *. rewrite line_numbers_app, Hn, IH.
    destruct withln; [|reflexivity].
    subst lineno'.
    replace (lineno + (count_nl value + line_breaks rest))
      with (lineno + count_nl value + line_breaks rest) by lia.
    apply range_capped_app; lia.
Qed.

(** X9: the line numbers shown are consecutive: none without
    [linenos]; with it, the starting line and then every line that the
    tokens reach, up to [total_lines]. *)
Theorem annotate_numbers_are_consecutive (toks : list (string * string)) (lineno : Z) :
  line_numbers (snd (annotate withln hl total lineno toks))
  = if withln
    then lineno :: range (lineno + 1) (Z.min (lineno + line_breaks toks) total + 1)
    else [].
Proof.
  unfold annotate.
  pose proof (annotate_tokens_numbers toks lineno) as H.
  destruct (annotate_tokens withln hl total lineno toks) as [final out].
  cbn [snd] in *. rewrite line_numbers_app, H.
  destruct withln; reflexivity.
Qed.

Lemma numbered_piece_classes (p : string * Z) :
  Forall (number_classes_follow hl) (numbered_piece hl total p).
Proof.
  destruct p as [chunk ln]. unfold numbered_piece.
  destruct (ln <=? total); [|constructor].
  destruct (not_highlighted hl ln) eqn:E;
    (constructor; [|constructor]); unfold number_classes_follow;
    rewrite E; split; reflexivity.
Qed.

Lemma annotate_token_classes (lineno : Z) (tok : string * string) :
  Forall (number_classes_follow hl) (snd (annotate_token withln hl total lineno tok)).
Proof.
  destruct tok as [cls value]. unfold annotate_token.
  destruct (withln && contains_nl value).
  - cbn [snd]. constructor; [exact I|].
    induction (tl (combine (split_nl value)
                     (range lineno (lineno + Z.of_nat (List.length (split_nl value))))))
      as [|p ps IH]; simpl; [constructor|].
    apply Forall_app. split; [apply numbered_piece_classes | exact IH].
  - destruct (existsb _ unstyled_tokens); cbn [snd]; repeat constructor.
Qed.

(** X10: every line number, and the piece that is numbered with it,
    has the classes of its own line: dimmed exactly when highlights are
    given and the line is not among them. *)
Theorem annotate_number_classes (toks : list (string * string)) (lineno : Z) :
  Forall (number_classes_follow hl) (snd (annotate withln hl total lineno toks)).
Proof.
  unfold annotate.
  assert (H : forall l, Forall (number_classes_follow hl)
                          (snd (annotate_tokens withln hl total l toks))).
  { induction toks as [|tok rest IH]; intros l; simpl; [constructor|].
    pose proof (annotate_token_classes l tok) as Hs.
    destruct (annotate_token withln hl total l tok) as [l' out].
    specialize (IH l').
    destruct (annotate_tokens withln hl total l' rest) as [final more].
    cbn [snd] in *. apply Forall_app. split; assumption. }
  specialize (H lineno).
  destruct (annotate_tokens withln hl total lineno toks) as [final out].
  cbn [snd] in *. apply Forall_app. split; [|exact H].
  destruct withln; repeat constructor.
Qed.

End AnnotateMore.

Lemma annotate_token_plain (total lineno : Z) (cls value : string) :
  annotate_token false [] total lineno (cls, value)
  = ((if contains_nl value then lineno + count_nl value else lineno),
     [if String.eqb cls "" then Plain lineno value else Styled lineno value cls]).
Proof.
  unfold annotate_token. cbn [not_highlighted andb unstyled_tokens existsb].
  rewrite orb_false_r.
  destruct (String.eqb cls ""); reflexivity.
Qed.

(** X7: with neither [linenos] nor highlighted lines, every token
    becomes one node: a [Text] when its class is empty, otherwise an
    [inline] with the class prefixed by [pygments-]. *)
Theorem annotate_plain_is_one_node_per_token
  (total lineno lnwidth : Z) (toks : list (string * string)) :
  flat_map (to_nodes lnwidth) (snd (annotate false [] total lineno toks))
  = map plain_node toks.
Proof.
  unfold annotate.
  assert (H : forall l, flat_map (to_nodes lnwidth)
                          (snd (annotate_tokens false [] total l toks))
                        = map plain_node toks).
  { induction toks as [|[cls value] rest IH]; intros l; [reflexivity|].
    cbn [annotate_tokens]. rewrite annotate_token_plain.
    specialize (IH (if contains_nl value then l + count_nl value else l)).
    destruct (annotate_tokens false [] total
                (if contains_nl value then l + count_nl value else l) rest)
      as [final more].
    cbn [snd] in *. rewrite flat_map_app, IH.
    cbn [map plain_node flat_map app].
    destruct (String.eqb cls ""); reflexivity. }
  specialize (H lineno).
  destruct (annotate_tokens false [] total lineno toks) as [final out].
  cbn [snd app] in *. exact H.
Qed.

(** ** More on DocutilsInterface *)

Section LexFacts.

Variable m : pygments_module.
Variables (code language : string) (custom_args : options).

(** X11: when pygments has no lexer for the language asked for
    ([ValueError], which [ClassNotFound] is), [lex] logs one
    informational record and tokenizes with the lexer [text], asked for
    without the custom arguments. *)
Theorem lex_falls_back_to_text (e : exn) (l : lexer) :
  truthy language = true ->
  lower language <> "none" ->
  get_lexer_by_name m (lower language) custom_args = Raise e ->
  is_ValueError e = true ->
  get_lexer_by_name m "text" no_options = Return l ->
  lex (Some m) code language custom_args
  = ([(INFO, "no pygments lexer for " ++ language ++ ", using 'text'")],
     Return (l code)).
Proof.
  intros Ht Hn Hraise He Htext. unfold lex. rewrite Ht.
  apply String.eqb_neq in Hn. rewrite Hn. cbn [negb andb].
  cbn [global_get_lexer_by_name bind]. rewrite Hraise, He.
  cbn [global_get_lexer_by_name bind]. rewrite Htext. reflexivity.
Qed.

Lemma join_loop_outcome (rest : list token) (lasttype : ttype) (lastval : string)
      (fin : option exn) :
  outcome (join_loop lasttype lastval rest fin) = fin.
Proof.
  revert lasttype lastval.
  induction rest as [|[t v] rest IH]; intros lasttype lastval; simpl.
  - destruct fin; reflexivity.
  - destruct (ttype_is t lasttype); simpl; apply IH.
Qed.

Lemma classify_loop_with_pygments (items : list token) (fin : option exn) :
  classify_loop (Some m) items fin
  = {| yielded := map (fun tok => (_get_ttype_class m (fst tok), snd tok)) items;
       outcome := fin |}.
Proof.
  induction items as [|[t v] items IH]; simpl; [reflexivity|].
  rewrite IH. reflexivity.
Qed.

Lemma values_text_classified (items : list token) :
  values_text (map (fun tok => (_get_ttype_class m (fst tok), snd tok)) items)
  = concat_values items.
Proof.
  induction items as [|[t v] items IH]; simpl; [reflexivity|].
  rewrite IH. reflexivity.
Qed.

(** X12: when [lex] returns a token stream that is not empty and runs
    to its end, iterating the interface logs what [lex] logged, ends
    without an exception, and the values it yields, concatenated, are
    those of the lexer's tokens: merging and classifying lose no text. *)
Theorem iter_keeps_text (logged0 : list log_record) (g : gen token) :
  lex (Some m) code language custom_args = (logged0, Return g) ->
  yielded g <> [] ->
  outcome g = None ->
  logged (iter (Some m) code language custom_args) = logged0
  /\ outcome (tokens (iter (Some m) code language custom_args)) = None
  /\ values_text (yielded (tokens (iter (Some m) code language custom_args)))
     = concat_values (yielded g).
Proof.
  intros Hlex Hne Hfin. unfold iter. rewrite Hlex.
  destruct g as [ys fin]. simpl in Hne, Hfin. subst fin.
  destruct ys as [|[t v] rest]; [congruence|].
  cbn [logged tokens]. rewrite classify_loop_with_pygments.
  cbn [yielded outcome]. unfold join. cbn [yielded outcome].
  split; [reflexivity|]. split; [apply join_loop_finishes|].
  rewrite values_text_classified. apply join_loop_values.
Qed.

(** X13: an exception that ends the lexer's token stream is not
    handled: it ends the iteration of the interface as well, also when
    it is an [IOError]. *)
Theorem iter_passes_on_lexer_exception
  (logged0 : list log_record) (g : gen token) (e : exn) :
  lex (Some m) code language custom_args = (logged0, Return g) ->
  outcome g = Some e ->
  outcome (tokens (iter (Some m) code language custom_args)) = Some e.
Proof.
  intros Hlex Hfin. unfold iter. rewrite Hlex.
  cbn [tokens]. rewrite classify_loop_with_pygments. cbn [outcome].
  unfold join. rewrite Hfin.
  destruct (yielded g) as [|[t v] rest]; [reflexivity|].
  apply join_loop_outcome.
Qed.

End LexFacts.

(** X14: in what [join] yields for a list of tokens, no two
    neighbours have the same type: every run of equal types has become
    one token. *)
Theorem join_leaves_no_equal_neighbours (ts : list token) :
  no_adjacent_same (yielded (join (of_list ts))).
Proof.
  destruct ts as [|[t v] rest]; [exact I|].
  change (join (of_list ((t, v) :: rest))) with (join_loop t v rest None).
  destruct (join_loop_alternating rest t v) as [v' [l [Hy Ha]]].
  rewrite Hy. exact Ha.
Qed.

(** ** Loading and tab expansion *)

Section LoadFacts.

Variable read_file : string -> string -> result string.

(** X15: when the included file cannot be read ([IOError] or
    [UnicodeError]), the directive logs one error record and goes on
    with empty content and [line_offset] 0; the anchors, given or not,
    raise nothing. *)
Theorem load_content_survives_read_error
  (o : options) (content : list string) (lineno : Z) (path : string) (e : exn) :
  include o = Some path ->
  read_file path (match encoding o with Some enc => enc | None => "utf-8" end)
  = Raise e ->
  is_IOError_or_UnicodeError e = true ->
  load_content read_file o content lineno
  = ([(ERROR, "Error reading file: " ++ dq ++ path ++ dq ++ " L "
                ++ str_of_int lineno)],
     Return ("", Some 0)).
Proof.
  intros Hinc Hread He. unfold load_content. rewrite Hinc, Hread, He.
  reflexivity.
Qed.

End LoadFacts.

Section TabFacts.

Lemma count_nl_append (a b : string) : count_nl (a ++ b) = count_nl a + count_nl b.
Proof.
  induction a as [|c a IH]; simpl; [reflexivity|]. rewrite IH. lia.
Qed.

Lemma contains_char_append (c : ascii) (a b : string) :
  contains_char c (a ++ b) = contains_char c a || contains_char c b.
Proof.
  induction a as [|x a IH]; simpl; [reflexivity|].
  rewrite IH. apply orb_assoc.
Qed.

Lemma spaces_have_no_line_feed (n : Z) : count_nl (spaces n) = 0.
Proof.
  unfold spaces. induction (Z.to_nat n) as [|k IH]; simpl; [reflexivity|].
  rewrite IH. reflexivity.
Qed.

Lemma spaces_have_no_tab (n : Z) : contains_char TAB (spaces n) = false.
Proof.
  unfold spaces. induction (Z.to_nat n) as [|k IH]; simpl; [reflexivity|].
  exact IH.
Qed.

(** X16: expanding tabs (line 243) leaves no tab in the content and
    does not change its number of line feeds, whatever the tab width,
    so [total_lines] counts the lines of the text as it was loaded. *)
Theorem tab_expansion_keeps_lines (content : string) (tabw : Z) :
  contains_char TAB (replace_tab content (spaces tabw)) = false
  /\ count_nl (replace_tab content (spaces tabw)) = count_nl content.
Proof.
  induction content as [|c content [IHt IHn]]; simpl; [split; reflexivity|].
  destruct (Ascii.eqb c TAB) eqn:E.
  - apply Ascii.eqb_eq in E. subst c. split.
    + rewrite contains_char_append, spaces_have_no_tab. exact IHt.
    + rewrite count_nl_append, spaces_have_no_line_feed, IHn. reflexivity.
  - simpl. rewrite E. split; [exact IHt | rewrite IHn; reflexivity].
Qed.

End TabFacts.

(** ** The option converters *)

Section ConverterFacts.

Lemma split_on_nonempty (sep : ascii) (s : string) : split_on sep s <> [].
Proof.
  destruct s as [|c s]; simpl; [discriminate|].
  destruct (Ascii.eqb c sep); [discriminate|].
  destruct (split_on sep s); discriminate.
Qed.

Lemma split_on_rejoin (sep : ascii) (s : string) :
  String.concat (String sep "") (split_on sep s) = s.
Proof.
  induction s as [|c s IH]; [reflexivity|].
  simpl split_on. pose proof (split_on_nonempty sep s) as Hne.
  destruct (Ascii.eqb c sep) eqn:E.
  - apply Ascii.eqb_eq in E. subst c.
    destruct (split_on sep s) as [|h t]; [congruence|].
    change (String.concat (String sep "") ("" :: h :: t))
      with (String sep (String.concat (String sep "") (h :: t))).
    rewrite IH. reflexivity.
  - destruct (split_on sep s) as [|h t]; [congruence|].
    destruct t as [|h' t].
    + simpl in *. rewrite IH. reflexivity.
    + change (String.concat (String sep "") (String c h :: h' :: t))
        with (String c (String.concat (String sep "") (h :: h' :: t))).
      rewrite IH. reflexivity.
Qed.

Lemma split_on_has_no_separator (sep : ascii) (s : string) :
  Forall (fun entry => contains_char sep entry = false) (split_on sep s).
Proof.
  induction s as [|c s IH]; simpl.
  - repeat constructor.
  - destruct (Ascii.eqb c sep) eqn:E.
    + constructor; [reflexivity | exact IH].
    + pose proof (split_on_nonempty sep s) as Hne.
      destruct (split_on sep s) as [|h t]; [congruence|].
      inversion IH as [|? ? Hh Ht]; subst.
      constructor; [|exact Ht]. simpl. rewrite E, Hh. reflexivity.
Qed.

(** X17: for an argument that holds a comma, [string_list] returns
    entries without commas which, joined by commas, give the argument
    back; blanks around an entry stay in it. *)
Theorem string_list_splits_at_commas (argument : string) :
  contains_char ","%char argument = true ->
  String.concat "," (string_list argument) = argument
  /\ Forall (fun entry => contains_char ","%char entry = false)
            (string_list argument).
Proof.
  intros Hc. unfold string_list. rewrite Hc.
  split; [apply (split_on_rejoin ","%char) | apply split_on_has_no_separator].
Qed.

Lemma all_chars_of_list (p : ascii -> bool) (l : list ascii) :
  Forall (fun c => p c = true) l -> all_chars p (string_of_list_ascii l) = true.
Proof.
  induction 1 as [|c l Hc Hl IH]; simpl; [reflexivity|].
  rewrite Hc, IH. reflexivity.
Qed.

Lemma string_of_nonempty_list (l : list ascii) :
  l <> [] -> string_of_list_ascii (rev l) <> "".
Proof.
  destruct l as [|c l]; [congruence|]. intros _. simpl.
  destruct (rev l); discriminate.
Qed.

Lemma split_ws_from_words (cur : list ascii) (s : string) :
  Forall (fun c => negb (isspace c) = true) cur ->
  Forall (fun entry => entry <> ""
                       /\ all_chars (fun c => negb (isspace c)) entry = true)
         (split_ws_from cur s).
Proof.
  revert cur. induction s as [|c s IH]; intros cur Hcur.
  - simpl. destruct cur as [|x cur]; [constructor|].
    constructor; [|constructor]. split.
    + apply string_of_nonempty_list. discriminate.
    + apply all_chars_of_list. apply Forall_rev. exact Hcur.
  - simpl. destruct (isspace c) eqn:E.
    + destruct cur as [|x cur]; [apply IH; constructor|].
      constructor; [|apply IH; constructor]. split.
      * apply string_of_nonempty_list. discriminate.
      * apply all_chars_of_list. apply Forall_rev. exact Hcur.
    + apply IH. constructor; [rewrite E; reflexivity | exact Hcur].
Qed.

Lemma words_layout_after_blank (entries : list string) (c : ascii) (s : string) :
  isspace c = true -> words_layout entries s -> words_layout entries (String c s).
Proof.
  intros Hc H. destruct entries as [|entry rest].
  - simpl in *. rewrite Hc, H. reflexivity.
  - simpl in *. destruct H as [blanks [tail [E [Hb [Ht Hr]]]]].
    exists (String c blanks), tail. split; [simpl; rewrite E; reflexivity|].
    split; [simpl; rewrite Hc, Hb; reflexivity|]. split; assumption.
Qed.

Lemma string_of_app_list (a b : list ascii) :
  string_of_list_ascii (a ++ b)%list
  = string_of_list_ascii a ++ string_of_list_ascii b.
Proof. induction a as [|x a IH]; simpl; [reflexivity | rewrite IH; reflexivity]. Qed.

(** The layout of what [split_ws_from] returns: with nothing held, the
    words of [s]; with a run held in [cur], that run continued by the
    leading run of [s], then the words of the rest. *)
Lemma split_ws_from_layout (s : string) (cur : list ascii) :
  match cur with
  | [] => words_layout (split_ws_from [] s) s
  | _ =>
      exists run tail rest,
        s = run ++ tail
        /\ all_chars (fun c => negb (isspace c)) run = true
        /\ (tail = "" \/ exists c tail', tail = String c tail' /\ isspace c = true)
        /\ split_ws_from cur s = (string_of_list_ascii (rev cur) ++ run) :: rest
        /\ words_layout rest tail
  end.
Proof.
  revert cur. induction s as [|c s IH]; intros cur.
  - destruct cur as [|x cur]; [reflexivity|].
    exists "", "", []. split; [reflexivity|]. split; [reflexivity|].
    split; [left; reflexivity|]. split; [|reflexivity].
    cbn [split_ws_from]. rewrite append_empty_r. reflexivity.
  - cbn [split_ws_from]. destruct (isspace c) eqn:E.
    + pose proof (IH []) as Hrest. cbv iota in Hrest.
      destruct cur as [|x cur].
      * apply words_layout_after_blank; assumption.
      * exists "", (String c s), (split_ws_from [] s).
        split; [reflexivity|]. split; [reflexivity|].
        split; [right; exists c, s; split; [reflexivity | exact E]|].
        split; [rewrite append_empty_r; reflexivity|].
        apply words_layout_after_blank; assumption.
    + pose proof (IH (c :: cur)) as Hrun. cbv iota in Hrun.
      destruct Hrun as [run [tail [rest [Es [Hrun [Ht [Hsplit Hlay]]]]]]].
      destruct cur as [|x cur].
      * cbn [words_layout]. rewrite Hsplit.
        exists "", tail. split; [simpl; rewrite Es; reflexivity|].
        split; [reflexivity|]. split; assumption.
      * exists (String c run), tail, rest.
        split; [simpl; rewrite Es; reflexivity|].
        split; [simpl; rewrite E, Hrun; reflexivity|].
        split; [exact Ht|]. split; [|exact Hlay].
        rewrite Hsplit. f_equal.
        change (rev (c :: x :: cur)) with (rev (x :: cur) ++ [c])%list.
        rewrite string_of_app_list, append_assoc. reflexivity.
Qed.

(** X18: for an argument without a comma, [string_list] returns the
    whitespace-separated words of the argument, all of them and in
    order: the argument is whitespace, the first entry, whitespace, the
    next entry and so on, with only whitespace after the last; every
    entry is followed by a whitespace character or by the end, and no
    entry is empty or holds a whitespace character. *)
Theorem string_list_splits_at_blanks (argument : string) :
  contains_char ","%char argument = false ->
  Forall (fun entry => entry <> ""
                       /\ all_chars (fun c => negb (isspace c)) entry = true)
         (string_list argument)
  /\ words_layout (string_list argument) argument.
Proof.
  intros Hc. unfold string_list. rewrite Hc. split.
  - apply split_ws_from_words. constructor.
  - exact (split_ws_from_layout argument []).
Qed.

(** X19: [zero_or_positive_int] returns no negative number, as long
    as [positive_int] returns positive ones only; [None] and ["0"] give
    0 without consulting it. *)
Theorem zero_or_positive_int_is_not_negative
  (positive_int : string -> result Z) (argument : option string) (v : Z) :
  (forall a n, positive_int a = Return n -> 1 <= n) ->
  zero_or_positive_int positive_int argument = Return v ->
  0 <= v.
Proof.
  intros Hpos H. unfold zero_or_positive_int in H.
  destruct argument as [a|]; [|inversion H; lia].
  destruct (String.eqb a "0"); [inversion H; lia|].
  apply Hpos in H. lia.
Qed.

Lemma sample_positive_int_is_positive (a : string) (n : Z) :
  sample_positive_int a = Return n -> 1 <= n.
Proof.
  unfold sample_positive_int. destruct (int_of_str a) as [v|]; [|discriminate].
  destruct (v <? 1) eqn:E; [discriminate|].
  intros H. inversion H. subst. apply Z.ltb_ge in E. exact E.
Qed.

Lemma zero_or_positive_int_is_not_negative_witness :
  zero_or_positive_int sample_positive_int (Some " 12") = Return 12 /\ 0 <= 12.
Proof.
  split; [reflexivity|].
  apply (zero_or_positive_int_is_not_negative
           sample_positive_int (Some " 12") 12
           sample_positive_int_is_positive).
  reflexivity.
Defined.

End ConverterFacts.

(** ** The properties at work *)

Lemma pass_in_scenario3 : occurs "pass" scenario3.
Proof.
  exists ("x = 1" ++ nl ++ "def foo():" ++ nl ++ "    "), nl. reflexivity.
Qed.

Lemma def_foo_in_scenario3 : occurs "def foo" scenario3.
Proof.
  exists ("x = 1" ++ nl), ("():" ++ nl ++ "    pass" ++ nl). reflexivity.
Qed.

Lemma extract_without_anchors_witness :
  extract no_options scenario3 = Return (scenario3, 0).
Proof.
  apply (extract_without_anchors no_options scenario3); reflexivity.
Defined.

Lemma end_at_keeps_through_first_match_witness :
  exists pre post,
    scenario3 = pre ++ "pass" ++ post
    /\ (forall pre' post', scenario3 = pre' ++ "pass" ++ post' -> len pre <= len pre')
    /\ apply_end_at (only_end_at "pass") (scenario3, 0) = Return (pre ++ "pass", 0).
Proof.
  apply (end_at_keeps_through_first_match (only_end_at "pass") scenario3 "pass" 0).
  - reflexivity.
  - discriminate.
  - exact pass_in_scenario3.
Defined.

Lemma end_before_keeps_up_to_first_match_witness :
  exists pre post,
    scenario3 = pre ++ "pass" ++ post
    /\ (forall pre' post', scenario3 = pre' ++ "pass" ++ post' -> len pre <= len pre')
    /\ apply_end_before (only_end_before "pass") (scenario3, 0) = Return (pre, 0).
Proof.
  apply (end_before_keeps_up_to_first_match
           (only_end_before "pass") scenario3 "pass" 0).
  - reflexivity.
  - discriminate.
  - exact pass_in_scenario3.
Defined.

Lemma extract_returns_part_of_content_witness :
  occurs (nl ++ "def foo():" ++ nl ++ "    pass" ++ nl) scenario3.
Proof.
  apply (extract_returns_part_of_content start_at_def_foo scenario3 _ 1).
  reflexivity.
Defined.

Lemma start_after_resumes_at_line_feed_witness :
  exists pre tail span,
    scenario3 = pre ++ "def foo" ++ tail ++ span
    /\ (forall pre' post', scenario3 = pre' ++ "def foo" ++ post' -> len pre <= len pre')
    /\ contains_nl tail = false
    /\ (span = "" \/ exists rest, span = String LF rest)
    /\ apply_start_after (only_start_after "def foo") (scenario3, 0)
       = Return (span, Z.of_nat (List.length (splitlines (pre ++ "def foo" ++ tail)))).
Proof.
  apply (start_after_resumes_at_line_feed
           (only_start_after "def foo") scenario3 "def foo" 0).
  - reflexivity.
  - discriminate.
  - exact def_foo_in_scenario3.
Defined.

Lemma start_at_span_keeps_line_break_witness :
  exists pre span,
    scenario3 = pre ++ span
    /\ occurs "def foo" span
    /\ (pre = "" \/ exists b rest, span = String b rest /\ (b = LF \/ b = CR))
    /\ apply_start_at start_at_def_foo (scenario3, 0)
       = Return (span,
                 Z.of_nat (List.length
                             (splitlines (slice span None (Some (len pre))))) - 1).
Proof.
  apply (start_at_span_keeps_line_break start_at_def_foo scenario3 "def foo" 0).
  - reflexivity.
  - discriminate.
  - exact def_foo_in_scenario3.
Defined.

(** With room for the fourth line, the trailing line feed of
    [three_lines] is kept. *)
Lemma annotate_keeps_text_witness :
  fragments_text (snd (annotate true [] 4 1 three_lines)) = values_text three_lines.
Proof.
  apply (annotate_keeps_text true [] 4 three_lines 1). vm_compute. discriminate.
Defined.

Lemma lex_falls_back_to_text_witness :
  lex (Some text_only) "x = 1" "Python" no_options
  = ([(INFO, "no pygments lexer for Python, using 'text'")],
     Return (of_list [(["Text"], "x = 1")])).
Proof.
  apply (lex_falls_back_to_text text_only "x = 1" "Python" no_options
           (ValueError "no lexer for alias found")
           (fun code => of_list [(["Text"], code)])).
  - reflexivity.
  - discriminate.
  - reflexivity.
  - reflexivity.
  - reflexivity.
Defined.

Lemma iter_keeps_text_witness :
  logged (iter (Some text_only) "x = 1" "text" no_options) = []
  /\ outcome (tokens (iter (Some text_only) "x = 1" "text" no_options)) = None
  /\ values_text (yielded (tokens (iter (Some text_only) "x = 1" "text" no_options)))
     = concat_values [(["Text"], "x = 1")].
Proof.
  apply (iter_keeps_text text_only "x = 1" "text" no_options
           [] (of_list [(["Text"], "x = 1")])).
  - reflexivity.
  - discriminate.
  - reflexivity.
Defined.

Lemma iter_passes_on_lexer_exception_witness :
  outcome (tokens (iter (Some breaking_lexer) "x = 1" "text" no_options))
  = Some IOError.
Proof.
  apply (iter_passes_on_lexer_exception breaking_lexer "x = 1" "text" no_options
           [] {| yielded := [(["Text"], "x = 1")]; outcome := Some IOError |} IOError);
    reflexivity.
Defined.

Lemma load_content_survives_read_error_witness :
  load_content no_files start_at_def_foo [] 7
  = ([(ERROR, "Error reading file: " ++ dq ++ "f.py" ++ dq ++ " L 7")],
     Return ("", Some 0)).
Proof.
  apply (load_content_survives_read_error
           no_files start_at_def_foo [] 7 "f.py" IOError); reflexivity.
Defined.

Lemma string_list_splits_at_commas_witness :
  String.concat "," (string_list "os, io,sys") = "os, io,sys"
  /\ Forall (fun entry => contains_char ","%char entry = false)
            (string_list "os, io,sys").
Proof.
  apply (string_list_splits_at_commas "os, io,sys"). reflexivity.
Defined.

Lemma string_list_splits_at_blanks_witness :
  Forall (fun entry => entry <> ""
                       /\ all_chars (fun c => negb (isspace c)) entry = true)
         (string_list "  os io   sys ")
  /\ words_layout (string_list "  os io   sys ") "  os io   sys ".
Proof.
  apply (string_list_splits_at_blanks "  os io   sys "). reflexivity.
Defined.

Example string_list_on_blanks : string_list "  os io   sys " = ["os"; "io"; "sys"].
Proof. reflexivity. Qed.

Example string_list_on_commas : string_list "os, io,sys" = ["os"; " io"; "sys"].
Proof. reflexivity. Qed.

(** ** The width of line numbers *)

Section WidthFacts.

Lemma string_of_uint_length (d : Decimal.uint) :
  String.length (NilEmpty.string_of_uint d) = Decimal.nb_digits d.
Proof. induction d; simpl; congruence. Qed.

Lemma usize_nb_digits (d : Decimal.uint) :
  DecimalPos.Unsigned.usize d = N.of_nat (Decimal.nb_digits d).
Proof.
  induction d; simpl Decimal.nb_digits; simpl DecimalPos.Unsigned.usize;
    try rewrite IHd; lia.
Qed.

(** A numeral of [n] digits is below [10 ^ n]. *)
Lemma of_lu_upper (d : Decimal.uint) :
  (DecimalPos.Unsigned.of_lu d < 10 ^ N.of_nat (Decimal.nb_digits d))%N.
Proof.
  induction d as [|d IH|d IH|d IH|d IH|d IH|d IH|d IH|d IH|d IH|d IH];
    [simpl; lia | ..];
    cbn [Decimal.nb_digits DecimalPos.Unsigned.of_lu];
    rewrite Nat2N.inj_succ, N.pow_succ_r';
    remember (10 ^ N.of_nat (Decimal.nb_digits d))%N as P;
    remember (DecimalPos.Unsigned.of_lu d) as v; clear - IH; lia.
Qed.

(** The numeral of a positive number has no leading zero. *)
Lemma to_uint_head_nonzero (p : positive) :
  Decimal.nzhead (Pos.to_uint p) = Pos.to_uint p.
Proof.
  pose proof (DecimalPos.Unsigned.to_of (Pos.to_uint p)) as H.
  rewrite DecimalPos.Unsigned.of_to in H. simpl N.to_uint in H.
  pose proof (DecimalPos.Unsigned.to_uint_nonzero p) as Hnz.
  unfold Decimal.unorm in H.
  destruct (Decimal.nzhead (Pos.to_uint p)) eqn:E; try (symmetry; exact H).
  congruence.
Qed.

(** A numeral of [n] digits without leading zero is at least
    [10 ^ (n - 1)]. *)
Lemma of_lu_rev_lower (d : Decimal.uint) :
  Decimal.nzhead d = d -> d <> Decimal.Nil ->
  (10 ^ N.of_nat (Decimal.nb_digits d - 1) <= DecimalPos.Unsigned.of_lu (Decimal.rev d))%N.
Proof.
  intros Hn Hne.
  destruct d as [|d|d|d|d|d|d|d|d|d|d]; [congruence | ..];
    try (exfalso; exact (DecimalFacts.nzhead_nonzero _ _ Hn));
    unfold Decimal.rev; simpl Decimal.revapp; rewrite DecimalPos.Unsigned.of_lu_revapp;
    cbn [DecimalPos.Unsigned.of_lu]; rewrite usize_nb_digits;
    cbn [Decimal.nb_digits];
    replace (S (Decimal.nb_digits d) - 1)%nat with (Decimal.nb_digits d) by lia;
    remember (10 ^ N.of_nat (Decimal.nb_digits d))%N as P;
    remember (DecimalPos.Unsigned.of_lu (Decimal.revapp d Decimal.Nil)) as v;
    clear; lia.
Qed.

Lemma to_uint_digits_mono (p q : positive) :
  (p <= q)%positive ->
  (Decimal.nb_digits (Pos.to_uint p) <= Decimal.nb_digits (Pos.to_uint q))%nat.
Proof.
  intros Hpq.
  pose proof (of_lu_rev_lower (Pos.to_uint p) (to_uint_head_nonzero p)
                (DecimalPos.Unsigned.to_uint_nonnil p)) as Hlow.
  rewrite <- DecimalPos.Unsigned.of_uint_alt, DecimalPos.Unsigned.of_to in Hlow.
  pose proof (of_lu_upper (Decimal.rev (Pos.to_uint q))) as Hup.
  rewrite <- DecimalPos.Unsigned.of_uint_alt, DecimalPos.Unsigned.of_to, DecimalFacts.nb_digits_rev in Hup.
  destruct (Nat.le_gt_cases (Decimal.nb_digits (Pos.to_uint p))
                            (Decimal.nb_digits (Pos.to_uint q)))
    as [Hle|Hgt]; [exact Hle|].
  exfalso.
  assert (Hpow : (10 ^ N.of_nat (Decimal.nb_digits (Pos.to_uint q))
                  <= 10 ^ N.of_nat (Decimal.nb_digits (Pos.to_uint p) - 1))%N).
  { apply N.pow_le_mono_r; lia. }
  lia.
Qed.

(** [len(str(a)) <= len(str(b))] for [0 <= a <= b]. *)
Lemma str_of_int_length_mono (a b : Z) :
  0 <= a <= b -> len (str_of_int a) <= len (str_of_int b).
Proof.
  intros [Ha Hab]. unfold len, str_of_int.
  destruct a as [|p|p]; [| |lia].
  - destruct b as [|q|q]; [lia| |lia].
    simpl. rewrite string_of_uint_length.
    pose proof (DecimalPos.Unsigned.to_uint_nonnil q) as Hnn.
    destruct (Pos.to_uint q); simpl; try congruence; lia.
  - destruct b as [|q|q]; [lia| |lia].
    simpl. rewrite !string_of_uint_length.
    apply inj_le. apply to_uint_digits_mono. lia.
Qed.

Lemma len_spaces (n : Z) : len (spaces n) = Z.max 0 n.
Proof.
  unfold len, spaces.
  assert (H : forall k, String.length (string_of_list_ascii (repeat " "%char k)) = k).
  { induction k as [|k IH]; simpl; [reflexivity | rewrite IH; reflexivity]. }
  rewrite H. lia.
Qed.

(** Every number from 0 to [total_lines] is shown in exactly
    [len(str(total_lines))] characters. *)
Lemma format_d_width (total ln : Z) :
  0 <= ln <= total ->
  len (format_d (len (str_of_int total)) ln) = len (str_of_int total).
Proof.
  intros H. unfold format_d. rewrite len_append, len_spaces.
  pose proof (str_of_int_length_mono ln total H). lia.
Qed.

Lemma in_range (x lo hi : Z) : In x (range lo hi) -> lo <= x < hi.
Proof.
  unfold range. intros Hin. apply in_map_iff in Hin.
  destruct Hin as [i [Hx Hi]]. apply in_seq in Hi. lia.
Qed.

Lemma numbers_decide_fragments (P : Z -> Prop) (fs : list fragment) :
  (forall ln, In ln (line_numbers fs) -> P ln) ->
  Forall (fun f => match f with
                   | FirstLineNo ln _ => P ln
                   | NumberedPiece ln _ _ _ => P ln
                   | _ => True
                   end) fs.
Proof.
  induction fs as [|f fs IH]; intros H; [constructor|].
  constructor.
  - destruct f; try exact I; apply H; simpl; left; reflexivity.
  - apply IH. intros ln Hin. apply H. destruct f; simpl; auto.
Qed.

(** X20: the line numbers line up: from a starting line that is not
    negative and not past [total_lines], every line number emitted is
    shown in exactly [lnwidth = len(str(total_lines))] characters. *)
Theorem annotate_numbers_have_one_width
  (withln : bool) (hl : list Z) (total lineno : Z) (toks : list (string * string)) :
  0 <= lineno <= total ->
  Forall (number_has_width (len (str_of_int total)))
         (snd (annotate withln hl total lineno toks)).
Proof.
  intros [H0 Hle].
  apply (numbers_decide_fragments
           (fun ln => len (format_d (len (str_of_int total)) ln)
                      = len (str_of_int total))).
  intros ln Hin. rewrite annotate_numbers_are_consecutive in Hin.
  apply format_d_width.
  destruct withln; [|destruct Hin].
  destruct Hin as [<-|Hin]; [lia|].
  apply in_range in Hin. lia.
Qed.

Lemma annotate_numbers_have_one_width_witness :
  Forall (number_has_width (len (str_of_int 12)))
         (snd (annotate true [] 12 9 three_lines)).
Proof.
  apply (annotate_numbers_have_one_width true [] 12 9 three_lines). lia.
Defined.

End WidthFacts.

(** ** The directive without line numbers *)

Section UnnumberedFacts.

Lemma annotate_tokens_unnumbered_text
  (hl : list Z) (total lnwidth : Z) (toks : list (string * string)) (lineno : Z) :
  nodes_text (flat_map (to_nodes lnwidth)
                       (snd (annotate_tokens false hl total lineno toks)))
  = values_text toks.
Proof.
  revert lineno. induction toks as [|[cls value] rest IH]; intros lineno.
  - reflexivity.
  - cbn [annotate_tokens values_text]. unfold annotate_token at 1.
    cbn [andb].
    set (cls' := if not_highlighted hl lineno then "diml" else cls).
    set (lineno' := if contains_nl value then lineno + count_nl value else lineno).
    specialize (IH lineno').
    destruct (existsb (String.eqb cls') unstyled_tokens); cbv iota beta;
      destruct (annotate_tokens false hl total lineno' rest) as [final more];
      cbn [snd app flat_map to_nodes nodes_text node_text] in *;
      rewrite IH; reflexivity.
Qed.

Variable m : pygments_module.
Variable read_file : string -> string -> result string.

(** X21: without [linenos], when the content loads, the tab width is
    a number and the lexer's token stream is not empty and runs to its
    end, the directive returns one literal block with the classes
    [code] and the language, and the text of its nodes is the text of
    the lexer's tokens, highlighted lines or not. *)
Theorem directive_unnumbered_keeps_lexer_text
  (arguments : list string) (o : options) (content : list string) (lineno : Z)
  (logged0 logged1 : list log_record) (text : string) (off : option Z)
  (tabw n : Z) (g : gen token) :
  linenos o = None ->
  load_content read_file o content lineno = (logged0, Return (text, off)) ->
  tab_width_of o = Return tabw ->
  numbering_offset o off = Return n ->
  lex (Some m) (replace_tab text (spaces tabw)) (language_of arguments) o
  = (logged1, Return g) ->
  yielded g <> [] ->
  outcome g = None ->
  exists block,
    code_block_directive (Some m) read_file arguments o content lineno
    = ((logged0 ++ logged1)%list, Return [block])
    /\ classes block = ["code"; language_of arguments]
    /\ nodes_text (children block) = concat_values (yielded g).
Proof.
  intros Hln Hload Htab Hoff Hlex Hne Hfin.
  destruct (iter_keeps_text m (replace_tab text (spaces tabw))
              (language_of arguments) o logged1 g Hlex Hne Hfin)
    as [Hlog [Hout Hval]].
  unfold code_block_directive. rewrite Hload.
  unfold render. rewrite Htab, Hoff. unfold with_linenos. rewrite Hln.
  rewrite Hlog, Hout.
  eexists. split; [reflexivity|]. split; [reflexivity|].
  cbn [children]. unfold annotate. cbn [app].
  rewrite <- Hval.
  pose proof (annotate_tokens_unnumbered_text
                (highlighted_lines o)
                (count_nl (replace_tab text (spaces tabw)) + 1 + n)
                (len (str_of_int (count_nl (replace_tab text (spaces tabw)) + 1 + n)))
                (yielded (tokens (iter (Some m) (replace_tab text (spaces tabw))
                                       (language_of arguments) o)))
                (1 + n)) as H.
  destruct (annotate_tokens false (highlighted_lines o)
              (count_nl (replace_tab text (spaces tabw)) + 1 + n) (1 + n)
              (yielded (tokens (iter (Some m) (replace_tab text (spaces tabw))
                                     (language_of arguments) o))))
    as [final out].
  cbn [snd] in *. exact H.
Qed.

End UnnumberedFacts.

Lemma directive_unnumbered_keeps_lexer_text_witness :
  exists block,
    code_block_directive (Some text_only) no_files [] no_options ["x = 1"; "y"] 7
    = ([], Return [block])
    /\ classes block = ["code"; language_of []]
    /\ nodes_text (children block)
       = concat_values [(["Text"], "x = 1" ++ nl ++ "y")].
Proof.
  apply (directive_unnumbered_keeps_lexer_text
           text_only no_files [] no_options ["x = 1"; "y"] 7
           [] [] ("x = 1" ++ nl ++ "y") None 8 0
           (of_list [(["Text"], "x = 1" ++ nl ++ "y")]));
    try reflexivity; discriminate.
Defined.

(** ** The last numbered line *)



(** The two cases of the final line feed: appended by the lexer to
    content without one, its line is past [total_lines] and shows no
    number; present in the content, its line is counted and numbered. *)
Example last_line_numbers :
  line_numbers (snd (annotate true [] (count_nl ("a" ++ nl ++ "b") + 1 + 0) (1 + 0)
                              [("", "a" ++ nl ++ "b" ++ nl)]))
  = [1; 2]
  /\ line_numbers (snd (annotate true [] (count_nl ("a" ++ nl ++ "b" ++ nl) + 1 + 0)
                                 (1 + 0) [("", "a" ++ nl ++ "b" ++ nl)]))
     = [1; 2; 3].
Proof. split; reflexivity. Qed.
